(** * lsmoura/cache: the HTTP response cache and its decision engine

    A shallow embedding of [cache.go] (the engine: [read], [write], [store],
    [key], [Do]), of the entry model ([cacheEntry], [asHttpResponse],
    [expired]), of the context flags ([WithIgnoreExpired], [IgnoreExpired],
    ...), of the error values of [err.go], of the [Provider] interface and of
    the in-memory provider, followed by the properties of the engine.

    The engine talks to three collaborators: the storage provider, the HTTP
    transport and the wall clock.  Each is an interface with its own state,
    and the engine is written in a small state monad over a [World] that
    holds the three states together with the list of calls made so far.
    A Go panic (index out of range, nil dereference, assignment to an entry
    of a nil map) ends the computation. *)

From Stdlib Require Import ZArith String List Strings.Byte Lia.
From stdpp Require Import base option list gmap strings fin_maps.

Local Open Scope string_scope.
Local Open Scope Z_scope.

(** ** Errors ([err.go], [errors.New], [fmt.Errorf] with [%w]) *)

(** The three sentinels of [err.go] are distinct values compared by identity;
    [fmt_Errorf] is [fmt.Errorf(prefix + "%w", err)], which wraps [err];
    [ErrForeign] is an error made by a collaborator. *)
Inductive error : Type :=
| ErrCacheExpired
| ErrCacheExpiryIgnored
| ErrCacheMiss
| errors_New (text : string)
| fmt_Errorf (prefix : string) (wrapped : error)
| ErrForeign (text : string).

#[global] Instance error_eq_dec : EqDecision error.
Proof. solve_decision. Defined.

(** [errors.Is]: walk the chain of wrapped errors looking for [target]. *)
Fixpoint errors_Is (err target : error) : bool :=
  bool_decide (err = target) ||
  match err with
  | fmt_Errorf _ wrapped => errors_Is wrapped target
  | _ => false
  end.

(** ** Byte slices *)

(** A Go [[]byte] crossing the provider interface: [None] is the nil slice,
    which has length zero like the empty one. *)
Definition bytes : Type := option (list byte).

Definition len (b : bytes) : nat :=
  match b with
  | None => O
  | Some l => length l
  end.

Definition bytes_data (b : bytes) : list byte := default [] b.

(** ** The context flags *)

Inductive contextKey : Type :=
| contextKeyIgnoreExpired
| contextKeyIgnoreCache
| contextKeyOnlyCached.

#[global] Instance contextKey_eq_dec : EqDecision contextKey.
Proof. solve_decision. Defined.

(** A [context.Context] as far as the cache reads it: the chain of
    [context.WithValue] layers carrying this package's keys. *)
Inductive Context : Type :=
| Background
| WithValue (parent : Context) (key : contextKey) (val : bool).

Fixpoint Value (ctx : Context) (key : contextKey) : option bool :=
  match ctx with
  | Background => None
  | WithValue parent k v => if decide (k = key) then Some v else Value parent key
  end.

Definition WithIgnoreExpired (ctx : Context) (shouldIgnore : bool) : Context :=
  WithValue ctx contextKeyIgnoreExpired shouldIgnore.

Definition WithIgnoreCache (ctx : Context) (shouldIgnore : bool) : Context :=
  WithValue ctx contextKeyIgnoreCache shouldIgnore.

Definition WithOnlyCached (ctx : Context) (shouldOnly : bool) : Context :=
  WithValue ctx contextKeyOnlyCached shouldOnly.

(** The readers take a possibly nil context ([None]). *)
Definition IgnoreExpired (ctx : option Context) : bool :=
  match ctx with
  | None => false
  | Some c => match Value c contextKeyIgnoreExpired with
              | None => false
              | Some v => v
              end
  end.

Definition IgnoreCache (ctx : option Context) : bool :=
  match ctx with
  | None => false
  | Some c => match Value c contextKeyIgnoreCache with
              | None => false
              | Some v => v
              end
  end.

Definition OnlyCached (ctx : option Context) : bool :=
  match ctx with
  | None => false
  | Some c => match Value c contextKeyOnlyCached with
              | None => false
              | Some v => v
              end
  end.

(** ** Panics *)

(** What a computation gives: a value, or a panic with its message. *)
Inductive outcome (A : Type) : Type :=
| Val (a : A)
| Panic (reason : string).
Arguments Val {A} a.
Arguments Panic {A} reason.

(** ** HTTP messages

    [http.Header] is a map from names to lists of values and, like every Go
    map, may be nil ([None]): a nil map reads like the empty one, and
    assigning to it panics.  [net/http] allocates the map of the requests it
    builds and of the responses it reads; a message built as a literal
    without a [Header] field has a nil one.  A response body is a stream that
    yields its bytes and then either ends or fails; a response built as a
    literal may have no body at all. *)
Definition Header : Type := option (gmap string (list string)).

(** Reading a header map: [h[name]] and [range h]. *)
Definition Header_values (h : Header) : gmap string (list string) := default ∅ h.

Definition nil_map_assignment : string := "assignment to entry in nil map".

(** [Header.Set]: replace the values of [name] by the single [value].  The
    three names the engine sets are already in canonical form. *)
Definition Header_Set (h : Header) (name value : string) : outcome Header :=
  match h with
  | None => Panic nil_map_assignment
  | Some m => Val (Some (<[name := [value]]> m))
  end.

Record Request : Type := mkRequest {
  req_Method : string;
  req_URL : string;                      (* req.URL.String() *)
  req_Header : Header;
  req_ctx : option Context
}.

(** [req.Context()] never returns nil. *)
Definition Request_Context (req : Request) : Context :=
  default Background (req_ctx req).

Definition Request_WithContext (req : Request) (ctx : Context) : Request :=
  {| req_Method := req_Method req; req_URL := req_URL req;
     req_Header := req_Header req; req_ctx := Some ctx |}.

Record ReadCloser : Type := mkReadCloser {
  stream : list byte;
  read_err : option error
}.

(** [io.NopCloser(bytes.NewReader(data))] *)
Definition NopCloser (data : list byte) : ReadCloser :=
  {| stream := data; read_err := None |}.

(** [io.ReadAll] *)
Definition io_ReadAll (body : ReadCloser) : list byte * option error :=
  (stream body, read_err body).

Record Response : Type := mkResponse {
  StatusCode : Z;
  Body : option ReadCloser;
  resp_Header : Header;
  resp_Request : option Request;
  ContentLength : Z
}.

(** [req.Header.Set(name, value)] *)
Definition Request_SetHeader (req : Request) (name value : string) : outcome Request :=
  match Header_Set (req_Header req) name value with
  | Val h => Val {| req_Method := req_Method req; req_URL := req_URL req;
                    req_Header := h; req_ctx := req_ctx req |}
  | Panic s => Panic s
  end.

(** [resp.Header.Set(name, value)] *)
Definition Response_SetHeader (resp : Response) (name value : string) : outcome Response :=
  match Header_Set (resp_Header resp) name value with
  | Val h => Val {| StatusCode := StatusCode resp; Body := Body resp;
                    resp_Header := h;
                    resp_Request := resp_Request resp;
                    ContentLength := ContentLength resp |}
  | Panic s => Panic s
  end.

Definition Response_SetBody (resp : Response) (body : ReadCloser) : Response :=
  {| StatusCode := StatusCode resp; Body := Some body;
     resp_Header := resp_Header resp;
     resp_Request := resp_Request resp; ContentLength := ContentLength resp |}.

Definition MethodGet : string := "GET".
Definition StatusNotModified : Z := 304.
Definition StatusNotFound : Z := 404.

(** ** The entry model *)

Record cacheEntry : Type := mkEntry {
  Ts : Z;
  entry_StatusCode : Z;
  Data : list byte;
  Headers : gmap string string
}.

Definition asHttpResponse (e : cacheEntry) (req : Request) : Response :=
  {| StatusCode := entry_StatusCode e;
     Body := Some (NopCloser (Data e));
     resp_Header := Some ((λ v, [v]) <$> Headers e);
     resp_Request := Some req;
     ContentLength := Z.of_nat (length (Data e)) |}.

(** ** The collaborators *)

(** [Provider]: the storage interface.  [Set] is a reserved word here. *)
Class Provider (P : Type) : Type := {
  Get : P → Context → string → (bytes * option error) * P;
  Set_ : P → Context → string → bytes → Z → option error * P
}.

(** [HttpRequester]: the transport. *)
Class HttpRequester (T : Type) : Type := {
  HttpRequester_Do : T → Request → (option Response * option error) * T
}.

(** [time.Now]: reading the clock gives an instant and a later clock. *)
Class Clock (C : Type) : Type := {
  Now : C → Z * C
}.

(** [encoding/json] on [cacheEntry] and [time.Parse] are library code: the
    engine is parametric in them. *)
Class JsonCodec : Type := {
  json_Marshal : cacheEntry → list byte + error;
  json_Unmarshal : list byte → cacheEntry + error
}.

Class TimeParser : Type := {
  time_Parse : string → string → Z + error   (* layout, value *)
}.

Definition RFC1123 : string := "Mon, 02 Jan 2006 15:04:05 MST".

(** The calls the engine makes on its collaborators, each with the answer
    it got. *)
Inductive event : Type :=
| EvGet (key : string) (answer : bytes * option error)
| EvSet (key : string) (value : bytes) (expiry : Z) (answer : option error)
| EvDo (req : Request) (answer : option Response * option error).

Definition transport_calls (evs : list event) : list Request :=
  omap (λ ev, match ev with EvDo rq _ => Some rq | _ => None end) evs.

Definition storage_reads (evs : list event) : list string :=
  omap (λ ev, match ev with EvGet k _ => Some k | _ => None end) evs.

Definition storage_writes (evs : list event) : list (string * bytes * Z) :=
  omap (λ ev, match ev with EvSet k v d _ => Some (k, v, d) | _ => None end) evs.

(** ** The monad of the engine *)

Section Engine.

Context {P T C : Type}.
Context `{!Provider P, !HttpRequester T, !Clock C, !JsonCodec, !TimeParser}.

Record World : Type := mkWorld {
  provider : P;
  client : T;
  clock : C
}.

(** A run: what the computation gives back, the world it leaves, and the
    calls it made. *)
Record run (A : Type) : Type := mkRun {
  out : outcome A;
  final : World;
  log : list event
}.
Arguments mkRun {A} out final log.
Arguments out {A} r.
Arguments final {A} r.
Arguments log {A} r.

Definition M (A : Type) : Type := World → run A.

Definition ret {A} (a : A) : M A :=
  λ w, {| out := Val a; final := w; log := [] |}.

Definition panic {A} (reason : string) : M A :=
  λ w, {| out := Panic reason; final := w; log := [] |}.

(** A step that calls no collaborator. *)
Definition lift {A} (o : outcome A) : M A :=
  λ w, {| out := o; final := w; log := [] |}.

Definition bind {A B} (m : M A) (k : A → M B) : M B :=
  λ w, match m w with
       | {| out := Val a; final := w1; log := l1 |} =>
           match k a w1 with
           | {| out := o; final := w2; log := l2 |} =>
               {| out := o; final := w2; log := l1 ++ l2 |}
           end
       | {| out := Panic s; final := w1; log := l1 |} =>
           {| out := Panic s; final := w1; log := l1 |}
       end.

Notation "'let*' x ':=' c1 'in' c2" := (bind c1 (λ x, c2))
  (at level 10, x pattern, c1 at level 100, c2 at level 200).

Definition provider_Get (ctx : Context) (key : string) : M (bytes * option error) :=
  λ w, let '(r, p') := Get (provider w) ctx key in
       {| out := Val r;
          final := {| provider := p'; client := client w; clock := clock w |};
          log := [EvGet key r] |}.

Definition provider_Set (ctx : Context) (key : string) (value : bytes) (expiry : Z)
  : M (option error) :=
  λ w, let '(r, p') := Set_ (provider w) ctx key value expiry in
       {| out := Val r;
          final := {| provider := p'; client := client w; clock := clock w |};
          log := [EvSet key value expiry r] |}.

(** [r.httpClient().Do(req)]: the configured requester, or the default one. *)
Definition httpClient_Do (req : Request) : M (option Response * option error) :=
  λ w, let '(r, t') := HttpRequester_Do (client w) req in
       {| out := Val r;
          final := {| provider := provider w; client := t'; clock := clock w |};
          log := [EvDo req r] |}.

Definition time_Now : M Z :=
  λ w, let '(now, c') := Now (clock w) in
       {| out := Val now;
          final := {| provider := provider w; client := client w; clock := c' |};
          log := [] |}.

(** Using a pointer: a nil one panics. *)
Definition deref {A} (p : option A) : M A :=
  match p with
  | Some a => ret a
  | None => panic "invalid memory address or nil pointer dereference"
  end.

(** ** [cacheEntry.expired] *)
Definition expired (e : cacheEntry) : M bool :=
  match Headers e !! "Expires" with
  | None => ret true
  | Some expiry =>
      match time_Parse RFC1123 expiry with
      | inr _ => ret true
      | inl expires =>
          let* now := time_Now in
          ret (expires <? now)
      end
  end.

(** ** [Cache.read] *)
Definition read (ctx : Context) (key : string) : M (option cacheEntry * option error) :=
  let* (value, err) := provider_Get ctx key in
  match err with
  | Some err => ret (None, Some (fmt_Errorf "provider.Get(): " err))
  | None =>
      if (len value =? 0)%nat then ret (None, None)
      else
        match json_Unmarshal (bytes_data value) with
        | inr _ => (* the error is printed on standard output *)
            ret (None, None)
        | inl entry =>
            let* ex := expired entry in
            if ex then
              if IgnoreExpired (Some ctx)
              then ret (Some entry, Some ErrCacheExpiryIgnored)
              else ret (Some entry, Some ErrCacheExpired)
            else ret (Some entry, None)
        end
  end.

(** ** [Cache.write] *)
Definition write (ctx : Context) (key : string) (entry : cacheEntry) : M (option error) :=
  match json_Marshal entry with
  | inr err => ret (Some (fmt_Errorf "json.Marshal(): " err))
  | inl dataBytes =>
      let* err := provider_Set ctx key (Some dataBytes) 0 in
      match err with
      | Some err => ret (Some (fmt_Errorf "provider.Set(): " err))
      | None => ret None
      end
  end.

(** The loop of [store]: [e.Headers[k] = v[0]] for every header; [v[0]]
    panics on an empty list of values.  The loop ranges over the values of
    the header map, which are none when the map is nil. *)
Definition first_values (h : gmap string (list string)) : M (gmap string string) :=
  if decide (map_Forall (λ _ v, v ≠ []) h)
  then ret (omap head h)
  else panic "index out of range [0] with length 0".

(** ** [Cache.store] *)
Definition store (ctx : Context) (key : string) (resp : Response)
  : M (option cacheEntry * option error) :=
  let* body := deref (Body resp) in
  let '(data, err) := io_ReadAll body in
  match err with
  | Some err => ret (None, Some (fmt_Errorf "io.ReadAll(): " err))
  | None =>
      let* now := time_Now in
      let* hs := first_values (Header_values (resp_Header resp)) in
      let e := {| Ts := now; entry_StatusCode := StatusCode resp;
                  Data := data; Headers := hs |} in
      let* err := write ctx key e in
      match err with
      | Some err => ret (None, Some (fmt_Errorf "r.write(): " err))
      | None => ret (Some e, None)
      end
  end.

(** ** [Cache.key] and [DefaultKeyGenerator]

    Of the fields of [Cache], the provider and the requester are the ones
    whose state the [World] holds; the key generator stays in the record. *)
Record Cache : Type := mkCache {
  KeyGenerator : option (Request → string)
}.

Definition DefaultKeyGenerator (req : Request) : string := req_URL req.

Definition Cache_key (r : Cache) (req : Request) : string :=
  match KeyGenerator r with
  | None => DefaultKeyGenerator req
  | Some gen => gen req
  end.

(** ** [Cache.Do]

    The log sink of [Do] is a no-op unless one is configured and never feeds
    back into the decision; the [stat] tag it reports is noted in comments. *)

(** cache.go:175-181: the entity tag of the entry in hand, looked up under
    the name [ETag] as it is written here, becomes the conditional header of
    the outbound request. *)
Definition with_If_None_Match (entry : option cacheEntry) (req : Request)
  : outcome Request :=
  match entry with
  | None => Val req
  | Some e =>
      match Headers e !! "ETag" with
      | Some etag => if decide (etag ≠ "") then Request_SetHeader req "If-None-Match" etag
                     else Val req
      | None => Val req
      end
  end.

(** cache.go:200-205: a header of the entry, when it has it, replaces the
    one of the response. *)
Definition carry_header (name : string) (e : cacheEntry) (resp : Response)
  : outcome Response :=
  match Headers e !! name with
  | Some v => Response_SetHeader resp name v
  | None => Val resp
  end.

(** Both of them, [Expires] first. *)
Definition carry_headers (e : cacheEntry) (resp : Response) : outcome Response :=
  match carry_header "Expires" e resp with
  | Val resp => carry_header "Last-Modified" e resp
  | Panic s => Panic s
  end.

(** cache.go:167-221: what [Do] does once the read step has not returned,
    with the entry that step left in hand. *)
Definition Do_fetch (req : Request) (key : string) (entry : option cacheEntry)
  : M (option Response * option error) :=
  let ctx := Request_Context req in
  if OnlyCached (Some ctx) then
    (* stat = ignored_check *)
    match entry with
    | None => ret (None, Some ErrCacheMiss)
    | Some e => ret (Some (asHttpResponse e req), None)
    end
  else
    let* req := lift (with_If_None_Match entry req) in
    let* start := time_Now in
    let* (resp, err) := httpClient_Do req in
    match err with
    | Some err => ret (None, Some (fmt_Errorf "http.Do(): " err))
    | None =>
        let* finish := time_Now in
        let* resp := deref resp in
        if decide (StatusCode resp = StatusNotModified) then
          match entry with
          | None => ret (None, Some (errors_New "no cached entry to return"))
          | Some e =>
              let* resp := lift (carry_header "Expires" e resp) in
              let* resp := lift (carry_header "Last-Modified" e resp) in
              let* err := write ctx key e in   (* an error here is only logged *)
              ret (Some (Response_SetBody resp (NopCloser (Data e))), None)
          end
        else
          let* (e, err) := store ctx key resp in
          match err with
          | Some err => ret (None, Some (fmt_Errorf "r.store(): " err))
          | None =>
              let* e := deref e in
              ret (Some (asHttpResponse e req), None)
          end
    end.

Definition Do (r : Cache) (req : Request) : M (option Response * option error) :=
  let ctx := Request_Context req in
  if decide (req_Method req ≠ MethodGet) then httpClient_Do req
  else
    let key := Cache_key r req in
    if IgnoreCache (Some ctx) then
      (* stat = ignored *)
      Do_fetch req key None
    else
      let* (entry, err) := read ctx key in
      match err with
      | Some err =>
          if errors_Is err ErrCacheExpired then
            (* stat = expired *)
            Do_fetch req key entry
          else if errors_Is err ErrCacheExpiryIgnored then
            (* stat = ignored_expiry *)
            let* e := deref entry in
            ret (Some (asHttpResponse e req), None)
          else ret (None, Some err)
      | None =>
          match entry with
          | Some e => (* stat = hit *)
              ret (Some (asHttpResponse e req), None)
          | None => (* stat = miss *)
              Do_fetch req key None
          end
      end.

End Engine.

Arguments World : clear implicits.
Arguments run : clear implicits.
Arguments M : clear implicits.
Arguments mkRun {P T C A} out final log.
Arguments out {P T C A} r.
Arguments final {P T C A} r.
Arguments log {P T C A} r.

(** ** The in-memory provider ([memoryprovider]) *)

Record MemoryProvider : Type := mkMemoryProvider {
  data : option (gmap string bytes)      (* None: the map was never made *)
}.

Definition MemoryProvider_New : MemoryProvider := {| data := Some ∅ |}.

Definition MemoryProvider_Get (p : MemoryProvider) (_ : Context) (key : string)
  : (bytes * option error) * MemoryProvider :=
  match data p with
  | None => ((None, Some (errors_New "memory provider is not initialized")), p)
  | Some m =>
      match m !! key with
      | None => ((None, None), p)
      | Some value => ((value, None), p)
      end
  end.

Definition MemoryProvider_Set (p : MemoryProvider) (_ : Context) (key : string)
    (value : bytes) (_ : Z) : option error * MemoryProvider :=
  match data p with
  | None => (Some (errors_New "memory provider is not initialized"), p)
  | Some m => (None, {| data := Some (<[key := value]> m) |})
  end.

#[global] Instance MemoryProvider_Provider : Provider MemoryProvider :=
  {| Get := MemoryProvider_Get; Set_ := MemoryProvider_Set |}.

(** ** The requester of the test suite ([fakeRequester], cache_test.go) *)

Record fakeRequester : Type := mkFakeRequester {
  requestCount : Z;
  requester_data : option (gmap string cacheEntry);
  requestLog : list Request
}.

Definition fakeRequester_Do (f : fakeRequester) (req : Request)
  : (option Response * option error) * fakeRequester :=
  let f' := {| requestCount := requestCount f + 1;
               requester_data := requester_data f;
               requestLog := requestLog f ++ [req] |} in
  match requester_data f with
  | None => ((None, Some (errors_New "requester not initialized")), f')
  | Some m =>
      match m !! req_URL req with
      | None =>
          ((Some {| StatusCode := StatusNotFound; Body := None; resp_Header := None;
                    resp_Request := None; ContentLength := 0 |}, None), f')
      | Some entry => ((Some (asHttpResponse entry req), None), f')
      end
  end.

#[global] Instance fakeRequester_HttpRequester : HttpRequester fakeRequester :=
  {| HttpRequester_Do := fakeRequester_Do |}.

(** ** Stand-ins used to run the engine on concrete inputs *)

(** A provider that can be read but whose writes are refused, like a store
    that lost its connection between the read and the write. *)
Record ReadOnlyProvider : Type := mkReadOnlyProvider {
  contents : gmap string bytes
}.

#[global] Instance ReadOnlyProvider_Provider : Provider ReadOnlyProvider :=
  {| Get p _ key := ((default None (contents p !! key), None), p);
     Set_ p _ _ _ _ := (Some (ErrForeign "write refused"), p) |}.

(** A clock that advances by one at every reading. *)
#[global] Instance ticking_Clock : Clock Z :=
  {| Now c := (c, c + 1) |}.

#[global] Instance byte_eq_decision : EqDecision byte := Byte.byte_eq_dec.

#[global] Instance cacheEntry_eq_dec : EqDecision cacheEntry.
Proof. solve_decision. Defined.

(** A codec given by a finite table of entries and their encodings. *)
Definition tableCodec (table : list (cacheEntry * list byte)) : JsonCodec :=
  {| json_Marshal e :=
       match list_find (λ row, row.1 = e) table with
       | Some (_, row) => inl row.2
       | None => inr (ErrForeign "json: unsupported value")
       end;
     json_Unmarshal b :=
       match list_find (λ row, row.2 = b) table with
       | Some (_, row) => inl row.1
       | None => inr (ErrForeign "invalid character looking for beginning of value")
       end |}.

(** A date parser given by a finite table of date strings and instants. *)
Definition tableTime (table : list (string * Z)) : TimeParser :=
  {| time_Parse layout value :=
       if decide (layout = RFC1123) then
         match list_find (λ row, row.1 = value) table with
         | Some (_, row) => inl row.2
         | None => inr (ErrForeign "parsing time: cannot parse")
         end
       else inr (ErrForeign "parsing time: unknown layout") |}.

(** ** Notions used to state the properties *)

Section Notions.

Context {P T C : Type}.
Context `{!Provider P, !HttpRequester T, !Clock C, !JsonCodec, !TimeParser}.

(** The instant the clock shows at its next reading, and at the [n]-th
    reading after that. *)
Definition current_time (w : World P T C) : Z := (Now (clock w)).1.

Fixpoint reading (n : nat) (c : C) : Z :=
  match n with
  | O => (Now c).1
  | S n' => reading n' (Now c).2
  end.

(** The freshness predicate in the words of the specification: an entry is
    expired unless its [Expires] header is there, parses as a date, and that
    date is not before the current time. *)
Definition expired_at (e : cacheEntry) (now : Z) : bool :=
  match Headers e !! "Expires" with
  | None => true
  | Some expiry =>
      match time_Parse RFC1123 expiry with
      | inr _ => true
      | inl expires => bool_decide (expires < now)
      end
  end.

(** The entry a stored value stands for, if any. *)
Definition decode (value : bytes) : option cacheEntry :=
  if decide (len value = 0%nat) then None
  else match json_Unmarshal (bytes_data value) with
       | inl e => Some e
       | inr _ => None
       end.

(** What the store holds for the key of a request. *)
Inductive lookup_result : Type :=
| Absent
| Stored (e : cacheEntry)
| Failed (err : error).

Definition stored (r : Cache) (req : Request) (w : World P T C) : lookup_result :=
  match (Get (provider w) (Request_Context req) (Cache_key r req)).1 with
  | (_, Some err) => Failed err
  | (value, None) =>
      match decode value with
      | Some e => Stored e
      | None => Absent
      end
  end.

(** Read off the log of a call: the entry its read step obtained, the answer
    of the transport, and the error of a refused write. *)
Definition obtained (evs : list event) : option cacheEntry :=
  match evs with
  | EvGet _ (value, None) :: _ => decode value
  | _ => None
  end.

Definition transport_answer (evs : list event) : option (option Response * option error) :=
  head (omap (λ ev, match ev with EvDo _ a => Some a | _ => None end) evs).

Definition write_error (evs : list event) : option error :=
  head (omap (λ ev, match ev with EvSet _ _ _ a => a | _ => None end) evs).

(** Kinds of calls: a write that asks for no expiry, a read. *)
Definition is_write (ev : event) : Prop :=
  match ev with
  | EvSet _ _ d _ => d = 0
  | _ => False
  end.

Definition is_read (ev : event) : Prop :=
  match ev with
  | EvGet _ _ => True
  | _ => False
  end.

(** The entry [store] builds from a response at instant [ts]. *)
Definition entry_of_response (ts : Z) (resp : Response) (body : ReadCloser) : cacheEntry :=
  {| Ts := ts; entry_StatusCode := StatusCode resp; Data := stream body;
     Headers := omap head (Header_values (resp_Header resp)) |}.

(** [n] calls of [Do] with the same request, one after the other. *)
Fixpoint Do_repeat (r : Cache) (req : Request) (n : nat) : M P T C unit :=
  match n with
  | O => ret tt
  | S n' => bind (Do r req) (λ _, Do_repeat r req n')
  end.

(** A run preceded by calls already made. *)
Definition prepend {A} (evs : list event) (x : run P T C A) : run P T C A :=
  {| out := out x; final := final x; log := evs ++ log x |}.

Definition nil_dereference : string :=
  "invalid memory address or nil pointer dereference".

(** Two worlds that differ at most in what the store holds, up to [R]. *)
Definition world_sim (R : P → P → Prop) (w1 w2 : World P T C) : Prop :=
  R (provider w1) (provider w2) ∧ client w1 = client w2 ∧ clock w1 = clock w2.

(** Two runs that give the same result, made the same calls with the same
    answers, and left similar worlds. *)
Definition run_sim {A} (R : P → P → Prop) (x1 x2 : run P T C A) : Prop :=
  out x1 = out x2 ∧ log x1 = log x2 ∧ world_sim R (final x1) (final x2).

(** Two calls that the caller, the transport and the store cannot tell
    apart: same result, same requests sent, same writes issued. *)
Definition same_behaviour {A} (R : P → P → Prop) (x1 x2 : run P T C A) : Prop :=
  out x1 = out x2 ∧
  transport_calls (log x1) = transport_calls (log x2) ∧
  storage_writes (log x1) = storage_writes (log x2) ∧
  world_sim R (final x1) (final x2).

(** The store holds a fresh entry for the request. *)
Definition serves_fresh (r : Cache) (req : Request) (w : World P T C) : bool :=
  match stored r req w with
  | Stored e => negb (expired_at e (current_time w))
  | _ => false
  end.

(** A relation on stores that writes respect. *)
Definition respects_Set (R : P → P → Prop) : Prop :=
  ∀ p1 p2 ctx key value expiry, R p1 p2 →
    (Set_ p1 ctx key value expiry).1 = (Set_ p2 ctx key value expiry).1 ∧
    R (Set_ p1 ctx key value expiry).2 (Set_ p2 ctx key value expiry).2.

End Notions.

(** Two in-memory stores that agree everywhere except perhaps at [key]. *)
Definition agree_except (key : string) (p1 p2 : MemoryProvider) : Prop :=
  match data p1, data p2 with
  | Some m1, Some m2 => delete key m1 = delete key m2
  | _, _ => False
  end.

(** ** Fixtures, after [cache_test.go] *)

(** [http.NewRequestWithContext(ctx, method, url, nil)]: the header map is
    made, empty. *)
Definition NewRequestWithContext (ctx : Context) (method url : string) : Request :=
  {| req_Method := method; req_URL := url; req_Header := Some ∅; req_ctx := Some ctx |}.

Definition NewRequest (method url : string) : Request :=
  NewRequestWithContext Background method url.

Definition regularURL : string := "http://example.com/".
Definition expiredURL : string := "http://example.com/alwaysExpired".
Definition nonExistingURL : string := "http://example.com/nonExisting".

(** The clock of the fixtures starts at instant 0. *)
Definition in_one_hour : string := "Thu, 01 Jan 1970 01:00:00 UTC".
Definition one_hour_ago : string := "Wed, 31 Dec 1969 23:00:00 UTC".

Definition fixture_time : TimeParser :=
  tableTime [(in_one_hour, 3600); (one_hour_ago, -3600)].

Definition hello : list byte := list_byte_of_string "Hello World".

Definition hello_entry (ts : Z) (expires : string) : cacheEntry :=
  {| Ts := ts; entry_StatusCode := 200; Data := hello;
     Headers := {[ "Expires" := expires ]} |}.

Definition tagged_entry (ts status : Z) (body : list byte) : cacheEntry :=
  {| Ts := ts; entry_StatusCode := status; Data := body;
     Headers := {[ "Expires" := one_hour_ago; "ETag" := "abcd" ]} |}.

(** An entry with its header names in the canonical form in which
    [net/http] hands every response over: the entity tag comes under the
    name [Etag]. *)
Definition canonical_entry (ts : Z) : cacheEntry :=
  {| Ts := ts; entry_StatusCode := 200; Data := hello;
     Headers := {[ "Expires" := one_hour_ago; "Etag" := "abcd" ]} |}.

Definition fixture_codec : JsonCodec :=
  tableCodec [ (hello_entry 0 in_one_hour, list_byte_of_string "fresh at 0");
               (hello_entry 2 in_one_hour, list_byte_of_string "fresh at 2");
               (hello_entry 6 in_one_hour, list_byte_of_string "fresh at 6");
               (hello_entry 0 one_hour_ago, list_byte_of_string "stale at 0");
               (tagged_entry 0 200 hello, list_byte_of_string "tagged at 0");
               (tagged_entry 2 200 hello, list_byte_of_string "tagged at 2");
               (tagged_entry 3 200 hello, list_byte_of_string "tagged at 3");
               (tagged_entry 6 200 hello, list_byte_of_string "tagged at 6");
               (tagged_entry 9 200 hello, list_byte_of_string "tagged at 9");
               (canonical_entry 2, list_byte_of_string "canonical at 2") ].

Definition encoded (e : cacheEntry) : bytes :=
  match @json_Marshal fixture_codec e with
  | inl b => Some b
  | inr _ => None
  end.


Definition cache0 : Cache := {| KeyGenerator := None |}.

Definition requester (m : gmap string cacheEntry) : fakeRequester :=
  {| requestCount := 0; requester_data := Some m; requestLog := [] |}.

Definition memory (m : gmap string bytes) : MemoryProvider := {| data := Some m |}.

(** The requests of the fixtures. *)
Definition req_regular : Request := NewRequest "GET" regularURL.
Definition req_expired : Request := NewRequest "GET" expiredURL.
Definition req_ignoreCache : Request :=
  NewRequestWithContext (WithIgnoreCache Background true) "GET" regularURL.
Definition req_ignoreCache_onlyCached : Request :=
  NewRequestWithContext (WithOnlyCached (WithIgnoreCache Background true) true)
    "GET" regularURL.
Definition req_ignoreExpired : Request :=
  NewRequestWithContext (WithIgnoreExpired Background true) "GET" expiredURL.
Definition req_ignoreExpired_ignoreCache : Request :=
  NewRequestWithContext (WithIgnoreCache (WithIgnoreExpired Background true) true)
    "GET" expiredURL.
Definition req_ignoreExpired_onlyCached : Request :=
  NewRequestWithContext (WithOnlyCached (WithIgnoreExpired Background true) true)
    "GET" nonExistingURL.
Definition req_onlyCached : Request :=
  NewRequestWithContext (WithOnlyCached Background true) "GET" nonExistingURL.

(** The worlds of the fixtures: a store, a requester, the clock at 0. *)
Definition origin : fakeRequester :=
  requester {[ regularURL := hello_entry 0 in_one_hour;
               expiredURL := tagged_entry 0 200 hello ]}.

(** An origin that answers 304 with an empty body. *)
Definition origin_not_modified : fakeRequester :=
  requester {[ regularURL := tagged_entry 0 304 [];
               expiredURL := tagged_entry 0 304 [] ]}.

Definition world_empty : World MemoryProvider fakeRequester Z :=
  {| provider := MemoryProvider_New; client := origin; clock := 0 |}.

Definition world_fresh : World MemoryProvider fakeRequester Z :=
  {| provider := memory {[ regularURL := encoded (hello_entry 0 in_one_hour) ]};
     client := origin; clock := 0 |}.

Definition world_stale : World MemoryProvider fakeRequester Z :=
  {| provider := memory {[ expiredURL := encoded (tagged_entry 0 200 hello) ]};
     client := origin; clock := 0 |}.

Definition world_stale_not_modified : World MemoryProvider fakeRequester Z :=
  {| provider := memory {[ expiredURL := encoded (tagged_entry 0 200 hello) ]};
     client := origin_not_modified; clock := 0 |}.

Definition world_empty_not_modified : World MemoryProvider fakeRequester Z :=
  {| provider := MemoryProvider_New; client := origin_not_modified; clock := 0 |}.


Definition world_empty_value : World MemoryProvider fakeRequester Z :=
  {| provider := memory {[ regularURL := Some [] ]}; client := origin; clock := 0 |}.

Definition world_readonly_stale (t : fakeRequester)
  : World ReadOnlyProvider fakeRequester Z :=
  {| provider := {| contents := {[ expiredURL := encoded (tagged_entry 0 200 hello) ]} |};
     client := t; clock := 0 |}.

(** The engine with the codec and the dates of the fixtures. *)
Definition fixture_Do {P : Type} `{!Provider P} (req : Request)
  : M P fakeRequester Z (option Response * option error) :=
  @Do P fakeRequester Z _ _ _ fixture_codec fixture_time cache0 req.

Definition fixture_stored {P : Type} `{!Provider P} (req : Request)
    (w : World P fakeRequester Z) : lookup_result :=
  @stored P fakeRequester Z _ fixture_codec cache0 req w.

Definition fixture_expired_at (e : cacheEntry) (now : Z) : bool :=
  @expired_at fixture_time e now.

(** The world left by a series of calls, as in a test that goes on with the
    same cache, store and requester. *)
Definition after {P : Type} `{!Provider P} (w : World P fakeRequester Z)
    (reqs : list Request) : World P fakeRequester Z :=
  fold_left (λ w' rq, final (fixture_Do rq w')) reqs w.

(** [requester.data = ...] between two calls of a test. *)
Definition with_origin {P : Type} (w : World P fakeRequester Z)
    (m : gmap string cacheEntry) : World P fakeRequester Z :=
  {| provider := provider w;
     client := {| requestCount := requestCount (client w);
                  requester_data := Some m;
                  requestLog := requestLog (client w) |};
     clock := clock w |}.

(** What a test reads from the result of a call. *)
Definition body_of (o : outcome (option Response * option error)) : option (list byte) :=
  match o with
  | Val (Some resp, None) => stream <$> Body resp
  | _ => None
  end.

Definition status_of (o : outcome (option Response * option error)) : option Z :=
  match o with
  | Val (Some resp, None) => Some (StatusCode resp)
  | _ => None
  end.

(** The cache of [TestCache_Keygen]: every request has the key ["foo"]. *)
Definition cache_foo : Cache := {| KeyGenerator := Some (λ _, "foo") |}.

Definition req_one : Request := NewRequest "GET" "http://example.com/1".
Definition req_two : Request := NewRequest "GET" "http://example.com/2".

Definition origin_keygen : fakeRequester :=
  requester {[ "http://example.com/1" := hello_entry 0 in_one_hour;
               "http://example.com/2" :=
                 {| Ts := 0; entry_StatusCode := 200;
                    Data := list_byte_of_string "Should not happen";
                    Headers := {[ "Expires" := in_one_hour ]} |} ]}.

(** ** More of the repository *)

(** [err.Error()]: the text of an error; [fmt.Errorf] with [%w] puts the
    text of the wrapped error after its prefix. *)
Fixpoint error_Error (err : error) : string :=
  match err with
  | ErrCacheExpired => "cache expired"
  | ErrCacheExpiryIgnored => "cache expiry ignored"
  | ErrCacheMiss => "cache miss"
  | errors_New text => text
  | fmt_Errorf prefix wrapped => prefix ++ error_Error wrapped
  | ErrForeign text => text
  end.

(** *** The Redis provider ([redisprovider]) *)

Definition redisNil : string := "redis: nil".

(** [redis.Client] as far as the provider uses it: [Ping().Result()],
    [Get(key).Result()] and [Set(key, value, expiry).Err()]. *)
Class RedisClient (S : Type) : Type := {
  client_Ping : S → option error * S;
  client_Get : S → string → (string * option error) * S;
  client_Set : S → string → bytes → Z → option error * S
}.

Record RedisProvider (S : Type) : Type := mkRedisProvider {
  redis_client : S
}.
Arguments mkRedisProvider {S} redis_client.
Arguments redis_client {S} r.

Section Redis.

Context {S : Type} `{!RedisClient S}.

(** [New], from the client that [redis.NewClient(options)] makes. *)
Definition RedisProvider_New (client : S)
  : option (RedisProvider S) * option error :=
  let '(err, s') := client_Ping client in
  match err with
  | Some err => (None, Some (fmt_Errorf "redis.Ping(): " err))
  | None => (Some {| redis_client := s' |}, None)
  end.

Definition RedisProvider_Get (p : RedisProvider S) (_ : Context) (key : string)
  : (bytes * option error) * RedisProvider S :=
  let '((value, err), s') := client_Get (redis_client p) key in
  let p' := {| redis_client := s' |} in
  match err with
  | Some err =>
      if decide (error_Error err = redisNil) then ((None, None), p')
      else ((None, Some (fmt_Errorf "redis.Get(): " err)), p')
  | None =>
      if decide (value = "" ∨ value = redisNil) then ((None, None), p')
      else ((Some (list_byte_of_string value), None), p')
  end.

Definition RedisProvider_Set (p : RedisProvider S) (_ : Context) (key : string)
    (value : bytes) (expiry : Z) : option error * RedisProvider S :=
  let '(err, s') := client_Set (redis_client p) key value expiry in
  let p' := {| redis_client := s' |} in
  match err with
  | Some err => (Some (fmt_Errorf "redis.Set(): " err), p')
  | None => (None, p')
  end.

#[global] Instance RedisProvider_Provider : Provider (RedisProvider S) :=
  {| Get := RedisProvider_Get; Set_ := RedisProvider_Set |}.

End Redis.

(** A Redis server kept in memory, to run the provider: a missing key is
    answered with the error [redis: nil]; expiries are not kept. *)
Record RedisDouble : Type := mkRedisDouble {
  redis_data : gmap string string
}.

#[global] Instance RedisDouble_RedisClient : RedisClient RedisDouble :=
  {| client_Ping s := (None, s);
     client_Get s key :=
       match redis_data s !! key with
       | Some value => ((value, None), s)
       | None => (("", Some (ErrForeign redisNil)), s)
       end;
     client_Set s key value _ :=
       (None, {| redis_data := <[key := string_of_list_byte (bytes_data value)]>
                                 (redis_data s) |}) |}.

(** A provider whose reads fail with a given error. *)
Record BrokenProvider : Type := mkBrokenProvider {
  failure : error
}.

#[global] Instance BrokenProvider_Provider : Provider BrokenProvider :=
  {| Get p _ _ := ((None, Some (failure p)), p);
     Set_ p _ _ _ _ := (Some (failure p), p) |}.

(** *** The logger with fixed key-values ([internalLogger], logging.go)

    A [Logger] is a handle on a sink; its three methods add a record to the
    sink.  Slices of key-values are lists: the sharing of a backing array
    between two loggers made from the same parent is not modelled. *)
Class Logger (L S V : Type) : Type := {
  Logger_Debug : L → string → list V → S → S;
  Logger_Info : L → string → list V → S → S;
  Logger_Error : L → string → list V → S → S
}.

Record internalLogger (L V : Type) : Type := mkInternalLogger {
  logger : L;
  keyvals : list V
}.
Arguments mkInternalLogger {L V} logger keyvals.
Arguments logger {L V} i.
Arguments keyvals {L V} i.

Section InternalLogger.

Context {L S V : Type} `{!Logger L S V}.

Definition internalLogger_Debug (l : internalLogger L V) (msg : string)
    (kvs : list V) : S → S :=
  Logger_Debug (logger l) msg (keyvals l ++ kvs).

Definition internalLogger_Info (l : internalLogger L V) (msg : string)
    (kvs : list V) : S → S :=
  Logger_Info (logger l) msg (keyvals l ++ kvs).

Definition internalLogger_Error (l : internalLogger L V) (msg : string)
    (kvs : list V) : S → S :=
  Logger_Error (logger l) msg (keyvals l ++ kvs).

Definition internalLogger_With (l : internalLogger L V) (kvs : list V)
  : internalLogger L V :=
  {| logger := logger l; keyvals := keyvals l ++ kvs |}.

End InternalLogger.

(** A sink that keeps its records: method called, message, key-values. *)
Inductive logged_at : Type := AtDebug | AtInfo | AtError.

#[global] Instance recording_Logger
  : Logger unit (list (logged_at * string * list string)) string :=
  {| Logger_Debug _ msg kvs sink := (sink ++ [(AtDebug, msg, kvs)])%list;
     Logger_Info _ msg kvs sink := (sink ++ [(AtInfo, msg, kvs)])%list;
     Logger_Error _ msg kvs sink := (sink ++ [(AtError, msg, kvs)])%list |}.

(** *** Laws a provider and a codec may obey *)

Section Laws.

Context {P : Type} `{!Provider P, !JsonCodec}.

(** What was written under a key and accepted is what is read under it. *)
Definition get_after_set : Prop :=
  ∀ (p : P) ctx ctx' key value expiry,
    (Set_ p ctx key value expiry).1 = None →
    (Get (Set_ p ctx key value expiry).2 ctx' key).1 = (value, None).

(** Decoding undoes encoding, and no entry is encoded as nothing. *)
Definition codec_round_trip : Prop :=
  ∀ e d, json_Marshal e = inl d → d ≠ [] ∧ json_Unmarshal d = inl e.

End Laws.

(** More fixtures. *)
Definition req_post : Request := NewRequest "POST" regularURL.

Definition world_uninitialised : World MemoryProvider fakeRequester Z :=
  {| provider := {| data := None |}; client := origin; clock := 0 |}.

Definition world_broken (err : error) : World BrokenProvider fakeRequester Z :=
  {| provider := {| failure := err |}; client := origin; clock := 0 |}.

(** An origin that is down. *)
Definition origin_down : fakeRequester :=
  {| requestCount := 0; requester_data := None; requestLog := [] |}.

Definition world_down : World MemoryProvider fakeRequester Z :=
  {| provider := MemoryProvider_New; client := origin_down; clock := 0 |}.

(** A requester that always gives the same answer. *)
Record cannedRequester : Type := mkCannedRequester {
  canned : option Response * option error
}.

#[global] Instance cannedRequester_HttpRequester : HttpRequester cannedRequester :=
  {| HttpRequester_Do t _ := (canned t, t) |}.

Definition world_canned (a : option Response * option error)
  : World MemoryProvider cannedRequester Z :=
  {| provider := MemoryProvider_New; client := {| canned := a |}; clock := 0 |}.

(** Answers for the canned requester. *)
Definition resp_empty_header : Response :=
  {| StatusCode := 200; Body := Some (NopCloser hello);
     resp_Header := Some {[ "X-Empty" := [] ]}; resp_Request := None;
     ContentLength := 11 |}.

Definition resp_failing_body : Response :=
  {| StatusCode := 200;
     Body := Some {| stream := hello; read_err := Some (ErrForeign "unexpected EOF") |};
     resp_Header := Some ∅; resp_Request := None; ContentLength := 11 |}.

Definition canned_Do (req : Request)
  : M MemoryProvider cannedRequester Z (option Response * option error) :=
  @Do MemoryProvider cannedRequester Z _ _ _ fixture_codec fixture_time cache0 req.

Definition req_nonExisting : Request := NewRequest "GET" nonExistingURL.

(** [req_expired] once the engine has set its conditional header. *)
Definition req_expired_tagged : Request :=
  {| req_Method := "GET"; req_URL := expiredURL;
     req_Header := Some {[ "If-None-Match" := ["abcd"] ]};
     req_ctx := Some Background |}.

(** A request built as a literal, without a header map. *)
Definition req_expired_bare : Request :=
  {| req_Method := "GET"; req_URL := expiredURL; req_Header := None;
     req_ctx := Some Background |}.

(** [&http.Response{StatusCode: http.StatusNotModified}]: a 304 answer built
    the way the requester of the test suite builds its 404, without a header
    map and without a body. *)
Definition resp_bare_304 : Response :=
  {| StatusCode := StatusNotModified; Body := None; resp_Header := None;
     resp_Request := None; ContentLength := 0 |}.

(** The canned requester over a store that holds the expired entry. *)
Definition world_stale_canned (a : option Response * option error)
  : World MemoryProvider cannedRequester Z :=
  {| provider := memory {[ expiredURL := encoded (tagged_entry 0 200 hello) ]};
     client := {| canned := a |}; clock := 0 |}.

(** An origin as seen through [net/http]. *)
Definition origin_canonical : fakeRequester :=
  requester {[ expiredURL := canonical_entry 0 ]}.

Definition world_empty_canonical : World MemoryProvider fakeRequester Z :=
  {| provider := MemoryProvider_New; client := origin_canonical; clock := 0 |}.

(** A Redis double holding three values. *)
Definition redis_fixture : RedisProvider RedisDouble :=
  {| redis_client := {| redis_data := {[ "a" := "value"; "b" := ""; "c" := redisNil ]} |} |}.

(** * Properties *)

Section Properties.

Context {P T C : Type}.
Context `{!Provider P, !HttpRequester T, !Clock C, !JsonCodec, !TimeParser}.

Implicit Types (w : World P T C) (r : Cache) (req : Request) (e : cacheEntry).
Implicit Types (ctx : Context) (key : string) (evs : list event).

(** *** The monad *)

Lemma bind_Val {A B} (m : M P T C A) (k : A → M P T C B) w a w1 l1 :
  m w = mkRun (Val a) w1 l1 →
  bind m k w = prepend l1 (k a w1).
Proof. unfold bind, prepend. intros ->. by destruct (k a w1). Qed.

Lemma bind_out {A B} (m : M P T C A) (k : A → M P T C B) w a :
  out (m w) = Val a → bind m k w = prepend (log (m w)) (k a (final (m w))).
Proof. destruct (m w) as [o w1 l1] eqn:Hm. cbn. intros ->. by apply bind_Val. Qed.

Lemma bind_ret {A B} (a : A) (k : A → M P T C B) w : bind (ret a) k w = k a w.
Proof. unfold bind, ret. by destruct (k a w). Qed.

Lemma prepend_nil {A} (x : run P T C A) : prepend [] x = x.
Proof. by destruct x. Qed.

(** *** The collaborators *)

Lemma time_Now_eq w :
  time_Now w = mkRun (Val (current_time w))
    {| provider := provider w; client := client w; clock := (Now (clock w)).2 |} [].
Proof. unfold time_Now, current_time. by destruct (Now (clock w)). Qed.

Lemma provider_Get_eq ctx key w :
  provider_Get ctx key w = mkRun (Val (Get (provider w) ctx key).1)
    {| provider := (Get (provider w) ctx key).2; client := client w; clock := clock w |}
    [EvGet key (Get (provider w) ctx key).1].
Proof. unfold provider_Get. by destruct (Get (provider w) ctx key). Qed.

Lemma provider_Set_eq ctx key value d w :
  provider_Set ctx key value d w = mkRun (Val (Set_ (provider w) ctx key value d).1)
    {| provider := (Set_ (provider w) ctx key value d).2; client := client w;
       clock := clock w |}
    [EvSet key value d (Set_ (provider w) ctx key value d).1].
Proof. unfold provider_Set. by destruct (Set_ (provider w) ctx key value d). Qed.

Lemma httpClient_Do_eq req w :
  httpClient_Do req w = mkRun (Val (HttpRequester_Do (client w) req).1)
    {| provider := provider w; client := (HttpRequester_Do (client w) req).2;
       clock := clock w |}
    [EvDo req (HttpRequester_Do (client w) req).1].
Proof. unfold httpClient_Do. by destruct (HttpRequester_Do (client w) req). Qed.

(** *** [expired] *)

Lemma ltb_bool_decide (x y : Z) : (x <? y) = bool_decide (x < y).
Proof. case_bool_decide; [by apply Z.ltb_lt | by apply Z.ltb_ge; lia]. Qed.

Lemma expired_eq e w :
  expired e w = mkRun (Val (expired_at e (current_time w)))
    (final (expired e w)) [].
Proof.
  unfold expired, expired_at.
  destruct (Headers e !! "Expires") as [s|]; [|done].
  destruct (time_Parse RFC1123 s) as [t|]; [|done].
  rewrite (bind_Val _ _ _ _ _ _ (time_Now_eq w)). cbn.
  by rewrite ltb_bool_decide.
Qed.

Lemma expired_final e w :
  provider (final (expired e w)) = provider w ∧ client (final (expired e w)) = client w.
Proof.
  unfold expired.
  destruct (Headers e !! "Expires") as [s|]; [|done].
  destruct (time_Parse RFC1123 s) as [t|]; [|done].
  by rewrite (bind_Val _ _ _ _ _ _ (time_Now_eq w)).
Qed.

(** *** [write] and [store] *)

Lemma write_eq ctx key e w :
  write ctx key e w =
  match json_Marshal e with
  | inr err => mkRun (Val (Some (fmt_Errorf "json.Marshal(): " err))) w []
  | inl d =>
      let a := Set_ (provider w) ctx key (Some d) 0 in
      mkRun (Val (fmt_Errorf "provider.Set(): " <$> a.1))
        {| provider := a.2; client := client w; clock := clock w |}
        [EvSet key (Some d) 0 a.1]
  end.
Proof.
  unfold write. destruct (json_Marshal e) as [d|err]; [|done].
  rewrite (bind_Val _ _ _ _ _ _ (provider_Set_eq _ _ _ _ w)).
  by destruct (Set_ (provider w) ctx key (Some d) 0).1.
Qed.

Lemma write_out ctx key e w : ∃ o, out (write ctx key e w) = Val o.
Proof. rewrite write_eq. destruct (json_Marshal e); by eexists. Qed.

Lemma store_eq ctx key resp w :
  store ctx key resp w =
  match Body resp with
  | None => mkRun (Panic "invalid memory address or nil pointer dereference") w []
  | Some body =>
      match read_err body with
      | Some err => mkRun (Val (None, Some (fmt_Errorf "io.ReadAll(): " err))) w []
      | None =>
          let w1 := {| provider := provider w; client := client w;
                       clock := (Now (clock w)).2 |} in
          if decide (map_Forall (λ _ v, v ≠ []) (Header_values (resp_Header resp))) then
            let e := entry_of_response (current_time w) resp body in
            let wr := write ctx key e w1 in
            mkRun (match out wr with
                   | Val (Some err) => Val (None, Some (fmt_Errorf "r.write(): " err))
                   | Val None => Val (Some e, None)
                   | Panic s => Panic s
                   end) (final wr) (log wr)
          else mkRun (Panic "index out of range [0] with length 0") w1 []
      end
  end.
Proof.
  unfold store, deref. destruct (Body resp) as [body|]; [|done].
  unfold bind at 1, ret at 1. cbn [io_ReadAll].
  destruct (read_err body) as [err|]; [done|].
  rewrite (bind_Val _ _ _ _ _ _ (time_Now_eq w)). cbn [app].
  unfold first_values. case_decide; [|done].
  unfold bind at 1, ret at 1.
  unfold entry_of_response.
  unfold bind, ret.
  destruct (write _ _ _ _) as [[[err|]|s] wf l]; cbn; by rewrite ?app_nil_r.
Qed.

(** *** [read] *)

Lemma read_eq ctx key w :
  read ctx key w =
  let a := (Get (provider w) ctx key).1 in
  let w1 := {| provider := (Get (provider w) ctx key).2; client := client w;
               clock := clock w |} in
  match a with
  | (_, Some err) => mkRun (Val (None, Some (fmt_Errorf "provider.Get(): " err))) w1 [EvGet key a]
  | (value, None) =>
      match decode value with
      | None => mkRun (Val (None, None)) w1 [EvGet key a]
      | Some e =>
          mkRun (Val (Some e,
                      if expired_at e (current_time w)
                      then Some (if IgnoreExpired (Some ctx) then ErrCacheExpiryIgnored
                                 else ErrCacheExpired)
                      else None))
            (final (expired e w1)) [EvGet key a]
      end
  end.
Proof.
  unfold read. rewrite (bind_Val _ _ _ _ _ _ (provider_Get_eq ctx key w)).
  cbn zeta. destruct (Get (provider w) ctx key).1 as [value [err|]] eqn:Ha; [done|].
  unfold decode. destruct (Nat.eqb_spec (len value) 0); [by rewrite decide_True|].
  rewrite decide_False by done.
  destruct (json_Unmarshal (bytes_data value)) as [e|]; [|done].
  set (w1 := {| provider := _ |}).
  rewrite (bind_Val _ _ _ _ _ _ (expired_eq e w1)).
  change (current_time w1) with (current_time w).
  by destruct (expired_at e (current_time w)), (IgnoreExpired (Some ctx)).
Qed.

(** *** [Do_fetch] *)


Lemma bind_lift {A B} (o : outcome A) (k : A → M P T C B) w :
  bind (lift o) k w =
  match o with
  | Val a => k a w
  | Panic s => mkRun (Panic s) w []
  end.
Proof. unfold bind, lift. destruct o as [a|s]; [|done]. by destruct (k a w). Qed.

Lemma Do_fetch_eq req key entry w :
  Do_fetch req key entry w =
  if OnlyCached (Some (Request_Context req)) then
    mkRun (Val (match entry with
                | None => (None, Some ErrCacheMiss)
                | Some e => (Some (asHttpResponse e req), None)
                end)) w []
  else
    match with_If_None_Match entry req with
    | Panic s => mkRun (Panic s) w []
    | Val rq =>
        let a := (HttpRequester_Do (client w) rq).1 in
        let t' := (HttpRequester_Do (client w) rq).2 in
        let w1 := {| provider := provider w; client := t'; clock := (Now (clock w)).2 |} in
        let w2 := {| provider := provider w; client := t';
                     clock := (Now (Now (clock w)).2).2 |} in
        match a with
        | (_, Some err) =>
            mkRun (Val (None, Some (fmt_Errorf "http.Do(): " err))) w1 [EvDo rq a]
        | (None, None) => mkRun (Panic nil_dereference) w2 [EvDo rq a]
        | (Some resp, None) =>
            if decide (StatusCode resp = StatusNotModified) then
              match entry with
              | None => mkRun (Val (None, Some (errors_New "no cached entry to return")))
                          w2 [EvDo rq a]
              | Some e =>
                  match carry_headers e resp with
                  | Panic s => mkRun (Panic s) w2 [EvDo rq a]
                  | Val resp' =>
                      let wr := write (Request_Context req) key e w2 in
                      mkRun (Val (Some (Response_SetBody resp' (NopCloser (Data e))), None))
                        (final wr) (EvDo rq a :: log wr)
                  end
              end
            else
              let st := store (Request_Context req) key resp w2 in
              mkRun (match out st with
                     | Val (_, Some err) => Val (None, Some (fmt_Errorf "r.store(): " err))
                     | Val (Some e, None) => Val (Some (asHttpResponse e rq), None)
                     | Val (None, None) => Panic nil_dereference
                     | Panic s => Panic s
                     end) (final st) (EvDo rq a :: log st)
        end
    end.
Proof.
  unfold Do_fetch. destruct (OnlyCached _); [by destruct entry|].
  rewrite bind_lift. destruct (with_If_None_Match entry req) as [rq|s]; [|done].
  cbn zeta.
  rewrite (bind_Val _ _ _ _ _ _ (time_Now_eq w)), prepend_nil.
  set (w0 := {| provider := provider w |}).
  rewrite (bind_Val _ _ _ _ _ _ (httpClient_Do_eq rq w0)). cbn [provider client clock w0].
  destruct (HttpRequester_Do (client w) rq).1 as [resp [err|]] eqn:Ha;
    [by destruct resp|].
  set (w1 := {| provider := provider w |}).
  rewrite (bind_Val _ _ _ _ _ _ (time_Now_eq w1)), prepend_nil.
  cbn [provider client clock w1].
  set (w2 := {| provider := provider w |}).
  destruct resp as [resp|]; [|done].
  cbn [deref]. rewrite bind_ret.
  case_decide.
  - destruct entry as [e|]; [|done].
    rewrite bind_lift. unfold carry_headers.
    destruct (carry_header "Expires" e resp) as [resp1|s]; [|done].
    rewrite bind_lift.
    destruct (carry_header "Last-Modified" e resp1) as [resp2|s]; [|done].
    destruct (write_out (Request_Context req) key e w2) as [o Ho].
    rewrite (bind_out _ _ _ _ Ho). unfold prepend, ret. cbn. by rewrite app_nil_r.
  - unfold bind, ret, deref, panic, prepend.
    destruct (store _ _ _ _) as [[[[e|] [err|]]|s] wf l]; cbn; by rewrite ?app_nil_r.
Qed.


(** *** [Do] on a GET request, by what the store holds *)

Lemma Do_not_GET r req w :
  req_Method req ≠ MethodGet → Do r req w = httpClient_Do req w.
Proof. intros Hm. unfold Do. by rewrite decide_True. Qed.

Lemma Do_GET_eq r req w :
  req_Method req = MethodGet →
  Do r req w =
  let ctx := Request_Context req in
  let key := Cache_key r req in
  if IgnoreCache (Some ctx) then Do_fetch req key None w
  else
    let a := (Get (provider w) ctx key).1 in
    let w1 := {| provider := (Get (provider w) ctx key).2; client := client w;
                 clock := clock w |} in
    match stored r req w with
    | Failed err =>
        let err' := fmt_Errorf "provider.Get(): " err in
        if errors_Is err' ErrCacheExpired
        then prepend [EvGet key a] (Do_fetch req key None w1)
        else if errors_Is err' ErrCacheExpiryIgnored
             then mkRun (Panic nil_dereference) w1 [EvGet key a]
             else mkRun (Val (None, Some err')) w1 [EvGet key a]
    | Absent => prepend [EvGet key a] (Do_fetch req key None w1)
    | Stored e =>
        if expired_at e (current_time w) then
          if IgnoreExpired (Some ctx)
          then mkRun (Val (Some (asHttpResponse e req), None))
                 (final (expired e w1)) [EvGet key a]
          else prepend [EvGet key a] (Do_fetch req key (Some e) (final (expired e w1)))
        else mkRun (Val (Some (asHttpResponse e req), None))
               (final (expired e w1)) [EvGet key a]
    end.
Proof.
  intros Hm. unfold Do. rewrite decide_False by (by intros []).
  cbn zeta. destruct (IgnoreCache _); [done|].
  set (ctx := Request_Context req). set (key := Cache_key r req).
  pose proof (read_eq ctx key w) as Hr. cbn zeta in Hr.
  unfold stored. fold ctx key.
  destruct (Get (provider w) ctx key).1 as [value [err|]] eqn:Ha.
  - rewrite (bind_Val _ _ _ _ _ _ Hr).
    cbn [errors_Is]. rewrite !bool_decide_eq_false_2 by done. cbn [orb].
    destruct (errors_Is err ErrCacheExpired); [done|].
    destruct (errors_Is err ErrCacheExpiryIgnored); done.
  - destruct (decode value) as [e|].
    + rewrite (bind_Val _ _ _ _ _ _ Hr).
      destruct (expired_at e (current_time w)); [|done].
      destruct (IgnoreExpired (Some ctx)); cbn [errors_Is]; rewrite ?bool_decide_eq_false_2 by done; done.
    + by rewrite (bind_Val _ _ _ _ _ _ Hr).
Qed.

(** *** The hit path *)

Lemma Do_hit r req w e :
  req_Method req = MethodGet →
  IgnoreCache (Some (Request_Context req)) = false →
  stored r req w = Stored e →
  expired_at e (current_time w) = false →
  out (Do r req w) = Val (Some (asHttpResponse e req), None) ∧
  log (Do r req w) =
    [EvGet (Cache_key r req) (Get (provider w) (Request_Context req) (Cache_key r req)).1] ∧
  client (final (Do r req w)) = client w.
Proof.
  intros Hm Hic Hst Hfresh. rewrite (Do_GET_eq _ _ _ Hm). cbn zeta.
  rewrite Hic, Hst, Hfresh. cbn. repeat split.
  by destruct (expired_final e
    {| provider := (Get (provider w) (Request_Context req) (Cache_key r req)).2;
       client := client w; clock := clock w |}).
Qed.

Lemma Do_repeat_S r req n w a :
  out (Do r req w) = Val a →
  Do_repeat r req (S n) w = prepend (log (Do r req w)) (Do_repeat r req n (final (Do r req w))).
Proof. intros Ho. cbn [Do_repeat]. by rewrite (bind_out _ _ _ _ Ho). Qed.

Lemma Do_repeat_hits r req n : ∀ w,
  req_Method req = MethodGet →
  IgnoreCache (Some (Request_Context req)) = false →
  (∀ k, (k < n)%nat → serves_fresh r req (final (Do_repeat r req k w)) = true) →
  transport_calls (log (Do_repeat r req n w)) = [] ∧
  client (final (Do_repeat r req n w)) = client w.
Proof.
  induction n as [|n IH]; intros w Hm Hic Hall; [done|].
  assert (serves_fresh r req w = true) as Hsf by (apply (Hall O); lia).
  unfold serves_fresh in Hsf. destruct (stored r req w) as [|e|] eqn:Hst; try done.
  apply negb_true_iff in Hsf.
  destruct (Do_hit r req w e Hm Hic Hst Hsf) as (Ho & Hl & Hc).
  rewrite (Do_repeat_S _ _ _ _ _ Ho).
  destruct (IH (final (Do r req w)) Hm Hic) as [IH1 IH2].
  - intros k Hk. specialize (Hall (S k) ltac:(lia)).
    by rewrite (Do_repeat_S _ _ _ _ _ Ho) in Hall.
  - cbn. unfold transport_calls in *. rewrite omap_app, IH1, Hl, IH2. done.
Qed.

(** *** Logs *)

Lemma only_writes evs :
  Forall is_write evs →
  transport_calls evs = [] ∧ storage_reads evs = [] ∧ transport_answer evs = None ∧
  obtained evs = None.
Proof.
  intros Hall. unfold transport_answer.
  assert (transport_calls evs = [] ∧ storage_reads evs = [] ∧
          omap (λ ev, match ev with EvDo _ a => Some a | _ => None end) evs = []) as (-> & -> & ->).
  { induction Hall as [|[] evs Hx Hall IH]; cbn in *; try done. }
  repeat split. destruct Hall as [|[] ? Hx]; done.
Qed.

Lemma only_reads evs :
  Forall is_read evs →
  transport_calls evs = [] ∧ storage_writes evs = [] ∧ transport_answer evs = None ∧
  write_error evs = None.
Proof.
  intros Hall. unfold transport_answer, write_error.
  assert (transport_calls evs = [] ∧ storage_writes evs = [] ∧
          omap (λ ev, match ev with EvDo _ a => Some a | _ => None end) evs = [] ∧
          omap (λ ev, match ev with EvSet _ _ _ a => a | _ => None end) evs = [])
    as (-> & -> & -> & ->); [|done].
  induction Hall as [|[] evs Hx Hall IH]; cbn in *; done.
Qed.

Lemma write_log_writes ctx key e w : Forall is_write (log (write ctx key e w)).
Proof.
  rewrite write_eq. destruct (json_Marshal e); cbn; repeat constructor.
Qed.

Lemma store_log_writes ctx key resp w : Forall is_write (log (store ctx key resp w)).
Proof.
  rewrite store_eq. destruct (Body resp) as [body|]; [|constructor].
  destruct (read_err body); [constructor|]. cbn zeta.
  case_decide; [|constructor]. apply write_log_writes.
Qed.

Lemma Do_fetch_log req key entry w :
  if OnlyCached (Some (Request_Context req)) then log (Do_fetch req key entry w) = []
  else
    match with_If_None_Match entry req with
    | Panic _ => log (Do_fetch req key entry w) = []
    | Val rq =>
        ∃ evs,
          log (Do_fetch req key entry w) =
            EvDo rq (HttpRequester_Do (client w) rq).1 :: evs ∧
          Forall is_write evs
    end.
Proof.
  rewrite Do_fetch_eq. destruct (OnlyCached _); [done|].
  destruct (with_If_None_Match entry req) as [rq|s]; [|done]. cbn zeta.
  destruct (HttpRequester_Do _ _).1 as [[resp|] [err|]];
    try (by eexists; split; [done|constructor]).
  case_decide.
  - destruct entry as [e|]; [|by eexists; split; [done|constructor]].
    destruct (carry_headers e resp); [|by eexists; split; [done|constructor]].
    eexists; split; [done|]. apply write_log_writes.
  - eexists; split; [done|]. apply store_log_writes.
Qed.

(** Without an entry in hand the request goes out as it came. *)
Lemma Do_fetch_log_no_entry req key w :
  OnlyCached (Some (Request_Context req)) = false →
  ∃ evs,
    log (Do_fetch req key None w) = EvDo req (HttpRequester_Do (client w) req).1 :: evs ∧
    Forall is_write evs.
Proof.
  intros Hoc. pose proof (Do_fetch_log req key None w) as Hl. by rewrite Hoc in Hl.
Qed.

Lemma Do_fetch_only_cached req key entry w :
  OnlyCached (Some (Request_Context req)) = true →
  Do_fetch req key entry w =
    mkRun (Val (match entry with
                | None => (None, Some ErrCacheMiss)
                | Some e => (Some (asHttpResponse e req), None)
                end)) w [].
Proof. intros Hoc. rewrite Do_fetch_eq. by rewrite Hoc. Qed.

Lemma Do_fetch_obtained req key entry w : obtained (log (Do_fetch req key entry w)) = None.
Proof.
  pose proof (Do_fetch_log req key entry w) as Hl.
  destruct (OnlyCached _); [by rewrite Hl|].
  destruct (with_If_None_Match entry req); [|by rewrite Hl].
  by destruct Hl as (evs & -> & _).
Qed.

Lemma reads_app pre evs :
  Forall is_read pre →
  transport_answer (pre ++ evs) = transport_answer evs ∧
  write_error (pre ++ evs) = write_error evs ∧
  transport_calls (pre ++ evs) = transport_calls evs ∧
  storage_writes (pre ++ evs) = storage_writes evs.
Proof.
  intros Hall. unfold transport_answer, write_error, transport_calls, storage_writes.
  induction Hall as [|[] pre Hx Hall IH]; cbn in *; done.
Qed.

(** *** [Do_fetch] after the answer of the transport *)

Lemma Do_fetch_304 req key entry w rq resp :
  OnlyCached (Some (Request_Context req)) = false →
  with_If_None_Match entry req = Val rq →
  (HttpRequester_Do (client w) rq).1 = (Some resp, None) →
  StatusCode resp = StatusNotModified →
  out (Do_fetch req key entry w) =
  match entry with
  | None => Val (None, Some (errors_New "no cached entry to return"))
  | Some e =>
      match carry_headers e resp with
      | Val resp' => Val (Some (Response_SetBody resp' (NopCloser (Data e))), None)
      | Panic s => Panic s
      end
  end.
Proof.
  intros Hoc Hrq Ha H304. rewrite Do_fetch_eq, Hoc, Hrq. cbn zeta. rewrite Ha.
  rewrite decide_True by done. destruct entry as [e|]; [|done].
  by destruct (carry_headers e resp).
Qed.

(** A panic of the 304 path comes before the write. *)
Lemma Do_fetch_304_panic req key e w rq resp s :
  OnlyCached (Some (Request_Context req)) = false →
  with_If_None_Match (Some e) req = Val rq →
  (HttpRequester_Do (client w) rq).1 = (Some resp, None) →
  StatusCode resp = StatusNotModified →
  carry_headers e resp = Panic s →
  log (Do_fetch req key (Some e) w) = [EvDo rq (Some resp, None)].
Proof.
  intros Hoc Hrq Ha H304 Hp. rewrite Do_fetch_eq, Hoc, Hrq. cbn zeta. rewrite Ha.
  rewrite decide_True by done. by rewrite Hp.
Qed.

Lemma store_write_error ctx key resp w err :
  write_error (log (store ctx key resp w)) = Some err →
  out (store ctx key resp w) =
    Val (None, Some (fmt_Errorf "r.write(): " (fmt_Errorf "provider.Set(): " err))).
Proof.
  rewrite store_eq. destruct (Body resp) as [body|]; [|done].
  destruct (read_err body); [done|]. cbn zeta. case_decide; [|done].
  rewrite write_eq. destruct (json_Marshal _) as [d|]; [|done]. cbn.
  destruct (Set_ _ _ _ _ _).1; [|done]. cbn. by intros [= ->].
Qed.

Lemma Do_fetch_write_error req key entry w rq resp err :
  OnlyCached (Some (Request_Context req)) = false →
  with_If_None_Match entry req = Val rq →
  (HttpRequester_Do (client w) rq).1 = (Some resp, None) →
  StatusCode resp ≠ StatusNotModified →
  write_error (log (Do_fetch req key entry w)) = Some err →
  out (Do_fetch req key entry w) =
    Val (None, Some (fmt_Errorf "r.store(): "
                       (fmt_Errorf "r.write(): " (fmt_Errorf "provider.Set(): " err)))).
Proof.
  intros Hoc Hrq Ha H304. rewrite Do_fetch_eq, Hoc, Hrq. cbn zeta. rewrite Ha.
  rewrite decide_False by done. cbn [log out]. intros Hw.
  change (write_error (log (store (Request_Context req) key resp
    {| provider := provider w;
       client := (HttpRequester_Do (client w) rq).2;
       clock := (Now (Now (clock w)).2).2 |})) = Some err) in Hw.
  by rewrite (store_write_error _ _ _ _ _ Hw).
Qed.

Lemma Do_fetch_stores req key entry w rq resp body data :
  OnlyCached (Some (Request_Context req)) = false →
  with_If_None_Match entry req = Val rq →
  (HttpRequester_Do (client w) rq).1 = (Some resp, None) →
  StatusCode resp ≠ StatusNotModified →
  Body resp = Some body → read_err body = None →
  map_Forall (λ _ v, v ≠ []) (Header_values (resp_Header resp)) →
  json_Marshal (entry_of_response (reading 2 (clock w)) resp body) = inl data →
  storage_writes (log (Do_fetch req key entry w)) = [(key, Some data, 0)].
Proof.
  intros Hoc Hrq Ha H304 Hb Hr Hh Hj. rewrite Do_fetch_eq, Hoc, Hrq. cbn zeta. rewrite Ha.
  rewrite decide_False by done. cbn [log]. rewrite store_eq, Hb, Hr. cbn zeta.
  rewrite decide_True by done. cbn [log]. rewrite write_eq.
  unfold current_time. cbn [clock]. change (Now (Now (Now (clock w)).2).2).1
    with (reading 2 (clock w)). by rewrite Hj.
Qed.

(** *** The paths of [Do] on a GET request *)

Lemma Do_GET_cases r req w :
  req_Method req = MethodGet →
  Forall is_read (log (Do r req w)) ∨
  ∃ pre w',
    Do r req w = prepend pre (Do_fetch req (Cache_key r req) (obtained (log (Do r req w))) w') ∧
    Forall is_read pre ∧ client w' = client w.
Proof.
  intros Hm. rewrite (Do_GET_eq _ _ _ Hm). cbn zeta.
  destruct (IgnoreCache _).
  { right. exists [], w. rewrite prepend_nil, Do_fetch_obtained. done. }
  unfold stored.
  set (ctx := Request_Context req). set (key := Cache_key r req).
  set (w1 := {| provider := _ |}).
  destruct (Get (provider w) ctx key).1 as [value [err|]] eqn:Ha.
  - destruct (errors_Is _ ErrCacheExpired).
    + right. exists [EvGet key (value, Some err)], w1. cbn. repeat split.
      repeat constructor.
    + left. destruct (errors_Is _ _); cbn; repeat constructor.
  - destruct (decode value) as [e|] eqn:Hd.
    + destruct (expired_at e (current_time w)); [|left; cbn; repeat constructor].
      destruct (IgnoreExpired _); [left; cbn; repeat constructor|].
      right. exists [EvGet key (value, None)], (final (expired e w1)).
      cbn. rewrite Hd. repeat split; [repeat constructor|].
      by destruct (expired_final e w1).
    + right. exists [EvGet key (value, None)], w1. cbn. rewrite Hd.
      repeat split. repeat constructor.
Qed.

Lemma Do_fetch_answer req key entry w a :
  transport_answer (log (Do_fetch req key entry w)) = Some a →
  OnlyCached (Some (Request_Context req)) = false ∧
  ∃ rq, with_If_None_Match entry req = Val rq ∧
        (HttpRequester_Do (client w) rq).1 = a.
Proof.
  pose proof (Do_fetch_log req key entry w) as Hl.
  destruct (OnlyCached _); [by rewrite Hl|].
  destruct (with_If_None_Match entry req) as [rq|s]; [|by rewrite Hl].
  destruct Hl as (evs & -> & _). cbn. intros [= <-]. split; [done|]. by exists rq.
Qed.

(** cache.go:200-205 on a response: with a header map the two headers of
    the entry are set; without one the first of them that the entry has
    makes [Header.Set] panic. *)
Lemma carried_headers e resp resp' :
  carry_headers e resp = Val resp' →
  StatusCode resp' = StatusCode resp ∧
  (∀ v, Headers e !! "Expires" = Some v →
        Header_values (resp_Header resp') !! "Expires" = Some [v]) ∧
  (∀ v, Headers e !! "Last-Modified" = Some v →
        Header_values (resp_Header resp') !! "Last-Modified" = Some [v]).
Proof.
  unfold carry_headers, carry_header, Response_SetHeader, Header_Set.
  destruct (resp_Header resp) as [m|] eqn:Hm;
    destruct (Headers e !! "Expires") as [x|], (Headers e !! "Last-Modified") as [l|];
    cbn; rewrite ?Hm; cbn; try done; intros [= <-]; cbn;
    repeat split; intros v [= <-]; by simplify_map_eq.
Qed.

Lemma carry_headers_cases e resp :
  (resp_Header resp ≠ None ∨
   (Headers e !! "Expires" = None ∧ Headers e !! "Last-Modified" = None) →
   ∃ resp', carry_headers e resp = Val resp') ∧
  (resp_Header resp = None →
   is_Some (Headers e !! "Expires") ∨ is_Some (Headers e !! "Last-Modified") →
   carry_headers e resp = Panic nil_map_assignment).
Proof.
  unfold carry_headers, carry_header, Response_SetHeader, Header_Set.
  destruct (resp_Header resp) as [m|] eqn:Hm;
    destruct (Headers e !! "Expires") as [x|], (Headers e !! "Last-Modified") as [l|];
    cbn; rewrite ?Hm; cbn; split;
    try (intros _; by eexists); try done;
    try (intros [?|[? ?]]; done);
    try (intros _ [[? ?]|[? ?]]; done).
Qed.

(** *** Two runs over similar stores *)

Section Similar.

Variable R : P → P → Prop.
Hypothesis R_Set : respects_Set R.

Lemma write_sim ctx key e w1 w2 :
  world_sim R w1 w2 → run_sim R (write ctx key e w1) (write ctx key e w2).
Proof.
  intros (HR & Hc & Hk). rewrite !write_eq.
  destruct (json_Marshal e) as [d|err]; [|done]. cbn zeta.
  destruct (R_Set _ _ ctx key (Some d) 0 HR) as [Ha HR'].
  unfold run_sim, world_sim. cbn. by rewrite Ha, Hc, Hk.
Qed.

Lemma store_sim ctx key resp w1 w2 :
  world_sim R w1 w2 → run_sim R (store ctx key resp w1) (store ctx key resp w2).
Proof.
  intros Hsim. pose proof Hsim as (HR & Hc & Hk). rewrite !store_eq.
  destruct (Body resp) as [body|]; [|done].
  destruct (read_err body); [done|]. cbn zeta.
  unfold current_time. rewrite <- Hc, <- Hk.
  case_decide; [|done].
  set (e := entry_of_response _ _ _).
  destruct (write_sim ctx key e
    {| provider := provider w1; client := client w1; clock := (Now (clock w1)).2 |}
    {| provider := provider w2; client := client w1; clock := (Now (clock w1)).2 |})
    as (Ho & Hl & Hw); [done|].
  unfold run_sim. cbn. by rewrite Ho, Hl.
Qed.

Lemma Do_fetch_sim req key entry w1 w2 :
  world_sim R w1 w2 →
  run_sim R (Do_fetch req key entry w1) (Do_fetch req key entry w2).
Proof.
  intros Hsim. pose proof Hsim as (HR & Hc & Hk). rewrite !Do_fetch_eq.
  destruct (OnlyCached _); [done|].
  destruct (with_If_None_Match entry req) as [rq|s]; [|done].
  cbn zeta. rewrite <- Hc, <- Hk.
  destruct (HttpRequester_Do (client w1) rq).1 as [[resp|] [err|]]; try done.
  set (w1' := {| provider := provider w1 |}). set (w2' := {| provider := provider w2 |}).
  assert (world_sim R w1' w2') as Hsim' by done.
  case_decide.
  - destruct entry as [e|]; [|done].
    destruct (carry_headers e resp) as [resp'|s]; [|done].
    destruct (write_sim (Request_Context req) key e w1' w2' Hsim') as (Ho & Hl & Hw).
    unfold run_sim. cbn. by rewrite Hl.
  - destruct (store_sim (Request_Context req) key resp w1' w2' Hsim') as (Ho & Hl & Hw).
    unfold run_sim. cbn. by rewrite Ho, Hl.
Qed.

Lemma Do_no_entry_sim r req w1 w2 v1 v2 p1 p2 :
  req_Method req = MethodGet →
  world_sim R w1 w2 →
  Get (provider w1) (Request_Context req) (Cache_key r req) = ((v1, None), p1) →
  Get (provider w2) (Request_Context req) (Cache_key r req) = ((v2, None), p2) →
  decode v1 = None → decode v2 = None →
  R p1 p2 →
  same_behaviour R (Do r req w1) (Do r req w2).
Proof.
  intros Hm Hsim Hg1 Hg2 Hd1 Hd2 HR'. pose proof Hsim as (HR & Hc & Hk).
  rewrite !(Do_GET_eq _ _ _ Hm). cbn zeta.
  destruct (IgnoreCache _).
  - destruct (Do_fetch_sim req (Cache_key r req) None w1 w2 Hsim) as (Ho & Hl & Hw).
    unfold same_behaviour. by rewrite Ho, Hl.
  - unfold stored. rewrite Hg1, Hg2. cbn [fst snd]. rewrite Hd1, Hd2.
    set (w1' := {| provider := p1 |}). set (w2' := {| provider := p2 |}).
    destruct (Do_fetch_sim req (Cache_key r req) None w1' w2') as (Ho & Hl & Hw); [done|].
    unfold same_behaviour. cbn. by rewrite Ho, Hl.
Qed.

End Similar.

(** *** Writes of a call *)

Lemma writes_ttl evs x :
  Forall is_write evs → x ∈ storage_writes evs → x.2 = 0.
Proof.
  unfold storage_writes. intros Hall Hx.
  apply list_elem_of_omap in Hx as (ev & Hev & Hsome).
  rewrite Forall_forall in Hall. specialize (Hall ev Hev).
  destruct ev; cbn in *; try done. by simplify_eq.
Qed.

Lemma Do_fetch_writes req key entry w x :
  x ∈ storage_writes (log (Do_fetch req key entry w)) → x.2 = 0.
Proof.
  pose proof (Do_fetch_log req key entry w) as Hl.
  destruct (OnlyCached _); [rewrite Hl; by intros ?%elem_of_nil|].
  destruct (with_If_None_Match entry req); [|rewrite Hl; by intros ?%elem_of_nil].
  destruct Hl as (evs & -> & Hall). cbn. by apply writes_ttl.
Qed.

(** A write refused after a 304 answer: there was an entry in hand, and the
    two headers had been set. *)
Lemma Do_fetch_304_entry req key entry w rq resp err :
  OnlyCached (Some (Request_Context req)) = false →
  with_If_None_Match entry req = Val rq →
  (HttpRequester_Do (client w) rq).1 = (Some resp, None) →
  StatusCode resp = StatusNotModified →
  write_error (log (Do_fetch req key entry w)) = Some err →
  ∃ e resp', entry = Some e ∧ carry_headers e resp = Val resp'.
Proof.
  intros Hoc Hrq Ha H304. rewrite Do_fetch_eq, Hoc, Hrq. cbn zeta. rewrite Ha.
  rewrite decide_True by done. destruct entry as [e|]; [|done].
  destruct (carry_headers e resp) as [resp'|s] eqn:Hcarry; [|done].
  intros _. by exists e, resp'.
Qed.

Lemma Do_writes r req w x :
  x ∈ storage_writes (log (Do r req w)) → x.2 = 0.
Proof.
  destruct (decide (req_Method req = MethodGet)) as [Hm|Hm].
  - destruct (Do_GET_cases r req w Hm) as [Hall|(pre & w' & Hdo & Hpre & Hc)].
    + apply only_reads in Hall as (_ & -> & _). by intros ?%elem_of_nil.
    + remember (obtained (log (Do r req w))) as entry eqn:Hentry. clear Hentry.
      rewrite Hdo. cbn [prepend log].
      destruct (reads_app pre (log (Do_fetch req (Cache_key r req) entry w')) Hpre)
        as (_ & _ & _ & ->).
      apply Do_fetch_writes.
  - rewrite (Do_not_GET _ _ _ Hm), httpClient_Do_eq. cbn. by intros ?%elem_of_nil.
Qed.


Lemma read_no_entry ctx key w v p :
  Get (provider w) ctx key = ((v, None), p) → decode v = None →
  out (read ctx key w) = Val (None, None).
Proof. intros Hg Hd. rewrite read_eq. cbn zeta. rewrite Hg. cbn. by rewrite Hd. Qed.


Lemma decode_empty v : len v = 0%nat → decode v = None.
Proof. intros Hl. unfold decode. by rewrite decide_True. Qed.

(** ** The claims *)

(** C1. A GET request without override flags whose key holds a fresh entry
    is answered from that entry (its status code, its body bytes) without
    any transport call; any number of such calls in a row leaves the
    transport untouched. *)
Theorem C1_fresh_hit_is_served_from_store r req :
  req_Method req = MethodGet →
  IgnoreCache (Some (Request_Context req)) = false →
  IgnoreExpired (Some (Request_Context req)) = false →
  OnlyCached (Some (Request_Context req)) = false →
  (∀ w e, stored r req w = Stored e → expired_at e (current_time w) = false →
     ∃ resp, out (Do r req w) = Val (Some resp, None) ∧
       resp = asHttpResponse e req ∧
       StatusCode resp = entry_StatusCode e ∧
       Body resp = Some (NopCloser (Data e)) ∧
       transport_calls (log (Do r req w)) = [] ∧
       client (final (Do r req w)) = client w) ∧
  (∀ n w,
     (∀ k, (k < n)%nat → serves_fresh r req (final (Do_repeat r req k w)) = true) →
     transport_calls (log (Do_repeat r req n w)) = [] ∧
     client (final (Do_repeat r req n w)) = client w).
Proof.
  intros Hm Hic _ _. split.
  - intros w e Hst Hfresh.
    destruct (Do_hit r req w e Hm Hic Hst Hfresh) as (Ho & Hl & Hc).
    exists (asHttpResponse e req). by rewrite Ho, Hl, Hc.
  - intros n w Hall. by apply Do_repeat_hits.
Qed.

(** C2, as amended.  A GET request whose context sets ignoreCache and does
    not set onlyCached skips the storage read and dispatches the request to
    the transport exactly once, whatever the store holds; when the transport
    answers with a response other than 304 that is read and serialised in
    full, the entry built from it is written back under the key of the
    request. *)
Theorem C2_ignoreCache_forces_fetch r req w :
  req_Method req = MethodGet →
  IgnoreCache (Some (Request_Context req)) = true →
  OnlyCached (Some (Request_Context req)) = false →
  storage_reads (log (Do r req w)) = [] ∧
  transport_calls (log (Do r req w)) = [req] ∧
  (∀ resp body data,
     transport_answer (log (Do r req w)) = Some (Some resp, None) →
     StatusCode resp ≠ StatusNotModified →
     Body resp = Some body → read_err body = None →
     map_Forall (λ _ v, v ≠ []) (Header_values (resp_Header resp)) →
     json_Marshal (entry_of_response (reading 2 (clock w)) resp body) = inl data →
     storage_writes (log (Do r req w)) = [(Cache_key r req, Some data, 0)]).
Proof.
  intros Hm Hic Hoc. rewrite (Do_GET_eq _ _ _ Hm). cbn zeta. rewrite Hic.
  destruct (Do_fetch_log_no_entry req (Cache_key r req) w Hoc) as (evs & Hl & Hall).
  destruct (only_writes evs Hall) as (Htc & Hsr & _).
  repeat split.
  - rewrite Hl. cbn. exact Hsr.
  - rewrite Hl. cbn. fold (transport_calls evs). by rewrite Htc.
  - intros resp body data Hans H304 Hb Hr Hh Hj.
    apply Do_fetch_answer in Hans as (_ & rq & Hrq & Ha).
    by apply (Do_fetch_stores req _ None w rq resp body data).
Qed.

(** C3, as amended.  When the transport answers a GET request with 304 Not
    Modified: without an entry obtained by the read step the call fails with
    an error; with one, and when the response of the transport has a header
    map (or the entry has neither [Expires] nor [Last-Modified]), the call
    returns a response with status 304 whose body is the stored bytes of the
    entry and whose [Expires] and [Last-Modified] headers are those of the
    entry, whatever the transport sent.  A response without a header map,
    for an entry that has one of the two headers, makes [Header.Set] panic
    (cache.go:201, 204), before anything is written. *)
Theorem C3_not_modified_reconciled r req w resp :
  req_Method req = MethodGet →
  transport_answer (log (Do r req w)) = Some (Some resp, None) →
  StatusCode resp = StatusNotModified →
  match obtained (log (Do r req w)) with
  | None =>
      out (Do r req w) = Val (None, Some (errors_New "no cached entry to return"))
  | Some e =>
      (resp_Header resp ≠ None ∨
       (Headers e !! "Expires" = None ∧ Headers e !! "Last-Modified" = None) →
       ∃ resp', out (Do r req w) = Val (Some resp', None) ∧
         StatusCode resp' = StatusNotModified ∧
         Body resp' = Some (NopCloser (Data e)) ∧
         (∀ v, Headers e !! "Expires" = Some v →
               Header_values (resp_Header resp') !! "Expires" = Some [v]) ∧
         (∀ v, Headers e !! "Last-Modified" = Some v →
               Header_values (resp_Header resp') !! "Last-Modified" = Some [v])) ∧
      (resp_Header resp = None →
       is_Some (Headers e !! "Expires") ∨ is_Some (Headers e !! "Last-Modified") →
       out (Do r req w) = Panic nil_map_assignment ∧
       storage_writes (log (Do r req w)) = [])
  end.
Proof.
  intros Hm Hans H304.
  destruct (Do_GET_cases r req w Hm) as [Hall|(pre & w' & Hdo & Hpre & Hc)].
  { apply only_reads in Hall as (_ & _ & Hnone & _). congruence. }
  remember (obtained (log (Do r req w))) as entry eqn:Hentry. clear Hentry.
  rewrite Hdo in Hans |- *. cbn [prepend out log] in *.
  destruct (reads_app pre (log (Do_fetch req (Cache_key r req) entry w')) Hpre)
    as (Hta & _ & _ & Hsw).
  rewrite Hta in Hans. apply Do_fetch_answer in Hans as (Hoc & rq & Hrq & Ha).
  rewrite (Do_fetch_304 _ _ _ _ _ _ Hoc Hrq Ha H304).
  destruct entry as [e|]; [|done].
  destruct (carry_headers_cases e resp) as [Hok Hpanic]. split.
  - intros Hcond. destruct (Hok Hcond) as [resp' Hcarry]. rewrite Hcarry.
    destruct (carried_headers e resp resp' Hcarry) as (Hs & Hx & Hl).
    eexists. split; [done|]. cbn. by rewrite Hs.
  - intros Hnil Hhas. pose proof (Hpanic Hnil Hhas) as Hcarry. rewrite Hcarry.
    split; [done|].
    by rewrite Hsw, (Do_fetch_304_panic _ _ _ _ _ _ _ Hoc Hrq Ha H304 Hcarry).
Qed.

(** C4. A GET request whose context sets onlyCached never reaches the
    transport.  Without a usable entry (the read was skipped by ignoreCache,
    or the store holds nothing usable) the call returns [ErrCacheMiss];
    with an entry it returns the response rebuilt from the entry. *)
Theorem C4_onlyCached_never_fetches r req w :
  req_Method req = MethodGet →
  OnlyCached (Some (Request_Context req)) = true →
  transport_calls (log (Do r req w)) = [] ∧
  client (final (Do r req w)) = client w ∧
  (IgnoreCache (Some (Request_Context req)) = true ∨ stored r req w = Absent →
     out (Do r req w) = Val (None, Some ErrCacheMiss)) ∧
  (∀ e, IgnoreCache (Some (Request_Context req)) = false →
        stored r req w = Stored e →
        out (Do r req w) = Val (Some (asHttpResponse e req), None)).
Proof.
  intros Hm Hoc. rewrite (Do_GET_eq _ _ _ Hm). cbn zeta.
  set (ctx := Request_Context req). set (key := Cache_key r req).
  set (w1 := {| provider := _ |}).
  destruct (IgnoreCache (Some ctx)).
  { rewrite (Do_fetch_only_cached _ _ _ _ Hoc). repeat split; intros; by intuition. }
  destruct (stored r req w) as [|e|err].
  - rewrite (Do_fetch_only_cached _ _ _ _ Hoc). repeat split; intros; by intuition.
  - assert (client (final (expired e w1)) = client w) as Hc
      by (by destruct (expired_final e w1)).
    destruct (expired_at e (current_time w)); [destruct (IgnoreExpired (Some ctx))|];
      rewrite ?(Do_fetch_only_cached _ _ _ _ Hoc); cbn;
      repeat split; intros; try done; intuition congruence.
  - cbn zeta. destruct (errors_Is _ ErrCacheExpired); [|destruct (errors_Is _ _)];
      rewrite ?(Do_fetch_only_cached _ _ _ _ Hoc); cbn;
      repeat split; intros; try done; intuition congruence.
Qed.

(** C5, as amended.  For a GET request whose context sets ignoreExpired and
    does not set ignoreCache: an expired entry held for its key is returned
    as it is, with no transport call and no storage write; when nothing is
    stored and onlyCached is not set, the request is fetched. *)
Theorem C5_ignoreExpired_serves_stale r req w :
  req_Method req = MethodGet →
  IgnoreExpired (Some (Request_Context req)) = true →
  IgnoreCache (Some (Request_Context req)) = false →
  (∀ e, stored r req w = Stored e → expired_at e (current_time w) = true →
     out (Do r req w) = Val (Some (asHttpResponse e req), None) ∧
     transport_calls (log (Do r req w)) = [] ∧
     storage_writes (log (Do r req w)) = []) ∧
  (stored r req w = Absent → OnlyCached (Some (Request_Context req)) = false →
     transport_calls (log (Do r req w)) = [req]).
Proof.
  intros Hm Hie Hic. rewrite (Do_GET_eq _ _ _ Hm). cbn zeta. rewrite Hic. split.
  - intros e -> ->. by rewrite Hie.
  - intros -> Hoc. cbn [prepend log].
    set (w1 := {| provider := _ |}).
    destruct (Do_fetch_log_no_entry req (Cache_key r req) w1 Hoc) as (evs & -> & Hall).
    destruct (only_writes evs Hall) as (Htc & _).
    cbn. fold (transport_calls evs). by rewrite Htc.
Qed.

(** C6, as amended.  On a GET request, when the transport answered and the
    storage write that followed was refused: after a full fetch (any status
    but 304) the response is dropped and the call returns the write error;
    after a 304 revalidation the refusal is only logged and the reconciled
    response is returned. *)
Theorem C6_write_failure_after_fetch r req w resp err :
  req_Method req = MethodGet →
  transport_answer (log (Do r req w)) = Some (Some resp, None) →
  write_error (log (Do r req w)) = Some err →
  (StatusCode resp ≠ StatusNotModified →
     out (Do r req w) =
       Val (None, Some (fmt_Errorf "r.store(): "
                          (fmt_Errorf "r.write(): " (fmt_Errorf "provider.Set(): " err))))) ∧
  (StatusCode resp = StatusNotModified →
     ∃ e resp', obtained (log (Do r req w)) = Some e ∧
       out (Do r req w) = Val (Some resp', None) ∧
       StatusCode resp' = StatusNotModified ∧
       Body resp' = Some (NopCloser (Data e))).
Proof.
  intros Hm Hans Hwe.
  destruct (Do_GET_cases r req w Hm) as [Hall|(pre & w' & Hdo & Hpre & Hc)].
  { apply only_reads in Hall as (_ & _ & Hnone & _). congruence. }
  remember (obtained (log (Do r req w))) as entry eqn:Hentry. clear Hentry.
  rewrite Hdo in Hans, Hwe |- *. cbn [prepend out log] in *.
  destruct (reads_app pre (log (Do_fetch req (Cache_key r req) entry w')) Hpre)
    as (Hta & Hw & _).
  rewrite Hta in Hans. rewrite Hw in Hwe.
  apply Do_fetch_answer in Hans as (Hoc & rq & Hrq & Ha).
  split; intros H304.
  - by apply (Do_fetch_write_error _ _ _ _ rq resp).
  - destruct (Do_fetch_304_entry _ _ _ _ _ _ _ Hoc Hrq Ha H304 Hwe)
      as (e & resp' & -> & Hcarry).
    rewrite (Do_fetch_304 _ _ _ _ _ _ Hoc Hrq Ha H304), Hcarry.
    destruct (carried_headers e resp resp' Hcarry) as (Hs & _).
    exists e. eexists. repeat split. cbn. by rewrite Hs.
Qed.

(** C7. The freshness predicate looks at the [Expires] header only: without
    the header, or with a value that does not parse as a date, the entry is
    expired; otherwise it is expired exactly when the parsed instant is
    before the current time. *)
Theorem C7_expired_from_Expires_header e w :
  (Headers e !! "Expires" = None → out (expired e w) = Val true) ∧
  (∀ s err, Headers e !! "Expires" = Some s → time_Parse RFC1123 s = inr err →
     out (expired e w) = Val true) ∧
  (∀ s t, Headers e !! "Expires" = Some s → time_Parse RFC1123 s = inl t →
     out (expired e w) = Val (bool_decide (t < current_time w))) ∧
  (∀ e', Headers e' !! "Expires" = Headers e !! "Expires" → expired e' w = expired e w).
Proof.
  repeat split.
  - intros He. rewrite expired_eq. unfold expired_at. by rewrite He.
  - intros s err He Hp. rewrite expired_eq. unfold expired_at. by rewrite He, Hp.
  - intros s t He Hp. rewrite expired_eq. unfold expired_at. by rewrite He, Hp.
  - intros e' He. unfold expired. by rewrite He.
Qed.


(** C10. Every storage write of the engine, after a full fetch or after a
    304 revalidation, asks the provider for an expiry of zero; and a value of
    length zero given by the provider is handled like no value at all: the
    read step reports no entry, and the call cannot be told apart from the
    call made when nothing is stored. *)
Theorem C10_zero_ttl_and_empty_value (R : P → P → Prop) :
  respects_Set R →
  (∀ r req (w : World P T C) x, x ∈ storage_writes (log (Do r req w)) → x.2 = 0) ∧
  (∀ r req (w1 w2 : World P T C) v p1 p2,
     req_Method req = MethodGet →
     world_sim R w1 w2 →
     Get (provider w1) (Request_Context req) (Cache_key r req) = ((v, None), p1) →
     len v = 0%nat →
     Get (provider w2) (Request_Context req) (Cache_key r req) = ((None, None), p2) →
     R p1 p2 →
     out (read (Request_Context req) (Cache_key r req) w1) = Val (None, None) ∧
     same_behaviour R (Do r req w1) (Do r req w2)).
Proof.
  intros HR. split.
  - intros r req w x. apply Do_writes.
  - intros r req w1 w2 v p1 p2 Hm Hsim Hg1 Hlen Hg2 Hp.
    pose proof (decode_empty v Hlen) as Hd. split.
    + by apply (read_no_entry _ _ _ v p1).
    + by apply (Do_no_entry_sim R HR r req w1 w2 v None p1 p2).
Qed.

End Properties.

(** * The properties on the fixtures *)

(** Writes to the in-memory provider keep two stores in agreement. *)
Lemma agree_except_respects_Set (key : string) : respects_Set (agree_except key).
Proof.
  intros p1 p2 ctx k v d HR. unfold agree_except in *. cbn.
  unfold MemoryProvider_Set.
  destruct (data p1) as [m1|], (data p2) as [m2|]; try done. cbn.
  split; [done|].
  destruct (decide (k = key)) as [->|Hne].
  - by rewrite !delete_insert_eq.
  - by rewrite <- !insert_delete_ne, HR.
Qed.

(** The tests of [cache_test.go], run on the model. *)

Example TestCache_Do_regular_request :
  body_of (out (fixture_Do req_regular world_empty)) = Some hello.
Proof. vm_compute. reflexivity. Qed.

Example TestCache_Do_cached_request :
  requestCount (client (after world_empty [req_regular])) = 1 ∧
  requestCount (client (after world_empty [req_regular; req_regular])) = 1.
Proof. vm_compute. split; reflexivity. Qed.

Example TestCache_Do_ignoring_cache :
  requestCount (client (after world_empty [req_regular; req_regular; req_ignoreCache])) = 2.
Proof. vm_compute. reflexivity. Qed.

Example TestCache_Do_ignore_expired :
  requestCount (client (after world_empty
    [req_regular; req_regular; req_ignoreCache; req_ignoreExpired])) = 3 ∧
  requestCount (client (after world_empty
    [req_regular; req_regular; req_ignoreCache; req_ignoreExpired; req_ignoreExpired])) = 3.
Proof. vm_compute. split; reflexivity. Qed.

Example TestCache_Do_only_cached :
  out (fixture_Do req_onlyCached (after world_empty
    [req_regular; req_regular; req_ignoreCache; req_ignoreExpired; req_ignoreExpired]))
  = Val (None, Some ErrCacheMiss).
Proof. vm_compute. reflexivity. Qed.

Example TestCache_Etag :
  let t := client (after world_empty [req_expired; req_expired]) in
  length (requestLog t) = 2%nat ∧
  (λ rq, Header_values (req_Header rq) !! "If-None-Match") <$> last (requestLog t)
    = Some (Some ["abcd"]).
Proof. vm_compute. split; reflexivity. Qed.

Example TestCache_Keygen :
  let w := {| provider := MemoryProvider_New; client := origin_keygen; clock := 0 |} in
  let w1 := final (@Do _ _ _ _ _ _ fixture_codec fixture_time cache_foo req_one w) in
  let x2 := @Do _ _ _ _ _ _ fixture_codec fixture_time cache_foo req_two w1 in
  length (requestLog (client (final x2))) = 1%nat ∧ body_of (out x2) = Some hello.
Proof. vm_compute. split; reflexivity. Qed.

Example TestCache_Etag304 :
  let w1 := after world_empty [req_expired] in
  let x2 := fixture_Do req_expired
              (with_origin w1 {[ expiredURL := tagged_entry 0 304 [] ]}) in
  length (requestLog (client (final x2))) = 2%nat ∧
  (λ rq, Header_values (req_Header rq) !! "If-None-Match")
    <$> last (requestLog (client (final x2))) = Some (Some ["abcd"]) ∧
  status_of (out x2) = Some StatusNotModified ∧
  body_of (out x2) = Some hello.
Proof. vm_compute. repeat split; reflexivity. Qed.

(** C1 on the fixtures: a fresh entry for [regularURL], one call and then three in a row. *)
Lemma C1_fresh_hit_witness :
  out (fixture_Do req_regular world_fresh)
    = Val (Some (asHttpResponse (hello_entry 0 in_one_hour) req_regular), None) ∧
  transport_calls (log (fixture_Do req_regular world_fresh)) = [] ∧
  transport_calls
    (log (@Do_repeat _ _ _ _ _ _ fixture_codec fixture_time cache0 req_regular 3 world_fresh))
    = [].
Proof.
  destruct (@C1_fresh_hit_is_served_from_store MemoryProvider fakeRequester Z _ _ _
              fixture_codec fixture_time cache0 req_regular
              eq_refl eq_refl eq_refl eq_refl) as [Hone Hmany].
  destruct (Hone world_fresh (hello_entry 0 in_one_hour))
    as (resp & Ho & -> & _ & _ & Hcalls & _);
    [vm_compute; reflexivity | vm_compute; reflexivity |].
  split; [exact Ho|]. split; [exact Hcalls|].
  apply (Hmany 3%nat world_fresh).
  intros k Hk. destruct k as [|[|[|k]]]; [vm_compute; reflexivity ..|lia].
Defined.

(** C2 as stated fails twice: with onlyCached also set nothing is sent to
    the transport, and a 304 answer to an ignoreCache request is fetched but
    not written back. *)
Lemma C2_ignoreCache_counterexample :
  (req_Method req_ignoreCache_onlyCached = MethodGet ∧
   IgnoreCache (Some (Request_Context req_ignoreCache_onlyCached)) = true ∧
   transport_calls (log (fixture_Do req_ignoreCache_onlyCached world_fresh)) = []) ∧
  (req_Method req_ignoreCache = MethodGet ∧
   IgnoreCache (Some (Request_Context req_ignoreCache)) = true ∧
   transport_answer (log (fixture_Do req_ignoreCache world_empty_not_modified))
     = Some (Some (asHttpResponse (tagged_entry 0 304 []) req_ignoreCache), None) ∧
   storage_writes (log (fixture_Do req_ignoreCache world_empty_not_modified)) = []).
Proof. vm_compute. repeat split. Qed.

(** C2 as amended, on a store that already holds a fresh entry. *)
Lemma C2_ignoreCache_witness :
  storage_reads (log (fixture_Do req_ignoreCache world_fresh)) = [] ∧
  transport_calls (log (fixture_Do req_ignoreCache world_fresh)) = [req_ignoreCache] ∧
  storage_writes (log (fixture_Do req_ignoreCache world_fresh))
    = [(regularURL, encoded (hello_entry 2 in_one_hour), 0)].
Proof.
  destruct (@C2_ignoreCache_forces_fetch MemoryProvider fakeRequester Z _ _ _
              fixture_codec fixture_time cache0 req_ignoreCache world_fresh
              eq_refl eq_refl eq_refl) as (Hreads & Hcalls & Hwrite).
  split; [exact Hreads|]. split; [exact Hcalls|].
  apply (Hwrite (asHttpResponse (hello_entry 0 in_one_hour) req_ignoreCache)
           (NopCloser hello)); try (vm_compute; reflexivity).
  - vm_compute. discriminate.
  - intros k v Hkv. cbn in Hkv. apply lookup_fmap_Some in Hkv as (x & <- & _). done.
Defined.

(** C3 as stated fails on a 304 answer that has no header map: with an
    entry in hand that has an [Expires] header, the call panics instead of
    returning a response. *)
Lemma C3_not_modified_counterexample :
  req_Method req_expired = MethodGet ∧
  transport_answer
    (log (canned_Do req_expired (world_stale_canned (Some resp_bare_304, None))))
    = Some (Some resp_bare_304, None) ∧
  StatusCode resp_bare_304 = StatusNotModified ∧
  @obtained fixture_codec
    (log (canned_Do req_expired (world_stale_canned (Some resp_bare_304, None))))
    = Some (tagged_entry 0 200 hello) ∧
  out (canned_Do req_expired (world_stale_canned (Some resp_bare_304, None)))
    = Panic nil_map_assignment.
Proof. vm_compute. repeat split. Qed.

(** C3 as amended, on the fixtures: a 304 answer with an expired entry in
    hand, a 304 answer with none (the read was skipped), and the 304 answer
    without a header map. *)
Lemma C3_not_modified_witness :
  (∃ resp', out (fixture_Do req_expired world_stale_not_modified) = Val (Some resp', None) ∧
     StatusCode resp' = StatusNotModified ∧
     Body resp' = Some (NopCloser hello) ∧
     Header_values (resp_Header resp') !! "Expires" = Some [one_hour_ago]) ∧
  out (fixture_Do req_ignoreCache world_empty_not_modified)
    = Val (None, Some (errors_New "no cached entry to return")) ∧
  storage_writes
    (log (canned_Do req_expired (world_stale_canned (Some resp_bare_304, None)))) = [].
Proof.
  split; [|split].
  - pose proof (@C3_not_modified_reconciled MemoryProvider fakeRequester Z _ _ _
                  fixture_codec fixture_time cache0 req_expired world_stale_not_modified
                  (asHttpResponse (tagged_entry 0 304 []) req_expired_tagged)
                  eq_refl) as Hthm.
    assert (@obtained fixture_codec
              (log (fixture_Do req_expired world_stale_not_modified))
            = Some (tagged_entry 0 200 hello)) as Hob by (vm_compute; reflexivity).
    unfold fixture_Do in Hob. rewrite Hob in Hthm.
    destruct Hthm as [Hok _]; [vm_compute; reflexivity | reflexivity |].
    destruct Hok as (resp' & Ho & Hs & Hb & Hx & _); [left; discriminate|].
    exists resp'. repeat split; [exact Ho|exact Hs|exact Hb|].
    apply Hx. vm_compute. reflexivity.
  - pose proof (@C3_not_modified_reconciled MemoryProvider fakeRequester Z _ _ _
                  fixture_codec fixture_time cache0 req_ignoreCache
                  world_empty_not_modified
                  (asHttpResponse (tagged_entry 0 304 []) req_ignoreCache)
                  eq_refl) as Hthm.
    assert (@obtained fixture_codec
              (log (fixture_Do req_ignoreCache world_empty_not_modified))
            = None) as Hob by (vm_compute; reflexivity).
    unfold fixture_Do in Hob. rewrite Hob in Hthm.
    apply Hthm; [vm_compute; reflexivity | reflexivity].
  - pose proof (@C3_not_modified_reconciled MemoryProvider cannedRequester Z _ _ _
                  fixture_codec fixture_time cache0 req_expired
                  (world_stale_canned (Some resp_bare_304, None)) resp_bare_304
                  eq_refl) as Hthm.
    assert (@obtained fixture_codec
              (log (canned_Do req_expired (world_stale_canned (Some resp_bare_304, None))))
            = Some (tagged_entry 0 200 hello)) as Hob by (vm_compute; reflexivity).
    unfold canned_Do in Hob. rewrite Hob in Hthm.
    destruct Hthm as [_ Hpanic]; [vm_compute; reflexivity | reflexivity |].
    destruct Hpanic as [_ Hnone]; [reflexivity | left; by eexists |].
    exact Hnone.
Defined.

(** C4 on the fixtures: nothing stored, and an expired entry stored. *)
Lemma C4_onlyCached_witness :
  transport_calls (log (fixture_Do req_onlyCached world_empty)) = [] ∧
  out (fixture_Do req_onlyCached world_empty) = Val (None, Some ErrCacheMiss) ∧
  out (fixture_Do (Request_WithContext req_expired (WithOnlyCached Background true))
         world_stale)
    = Val (Some (asHttpResponse (tagged_entry 0 200 hello)
                   (Request_WithContext req_expired (WithOnlyCached Background true))),
           None).
Proof.
  destruct (@C4_onlyCached_never_fetches MemoryProvider fakeRequester Z _ _ _
              fixture_codec fixture_time cache0 req_onlyCached world_empty
              eq_refl eq_refl) as (Hcalls & _ & Hmiss & _).
  destruct (@C4_onlyCached_never_fetches MemoryProvider fakeRequester Z _ _ _
              fixture_codec fixture_time cache0
              (Request_WithContext req_expired (WithOnlyCached Background true))
              world_stale eq_refl eq_refl) as (_ & _ & _ & Hentry).
  split; [exact Hcalls|]. split.
  - apply Hmiss. right. vm_compute. reflexivity.
  - apply Hentry; vm_compute; reflexivity.
Defined.

(** C5 as stated fails twice: with ignoreCache also set the expired entry is
    not served and the request is fetched, and with onlyCached also set
    nothing is fetched for a key that holds nothing. *)
Lemma C5_ignoreExpired_counterexample :
  (req_Method req_ignoreExpired_ignoreCache = MethodGet ∧
   IgnoreExpired (Some (Request_Context req_ignoreExpired_ignoreCache)) = true ∧
   fixture_stored req_ignoreExpired_ignoreCache world_stale
     = Stored (tagged_entry 0 200 hello) ∧
   fixture_expired_at (tagged_entry 0 200 hello) (current_time world_stale) = true ∧
   transport_calls (log (fixture_Do req_ignoreExpired_ignoreCache world_stale))
     = [req_ignoreExpired_ignoreCache]) ∧
  (req_Method req_ignoreExpired_onlyCached = MethodGet ∧
   IgnoreExpired (Some (Request_Context req_ignoreExpired_onlyCached)) = true ∧
   fixture_stored req_ignoreExpired_onlyCached world_empty = Absent ∧
   transport_calls (log (fixture_Do req_ignoreExpired_onlyCached world_empty)) = []).
Proof. vm_compute. repeat split. Qed.

(** C5 as amended, on a store with an expired entry and on an empty one. *)
Lemma C5_ignoreExpired_witness :
  (out (fixture_Do req_ignoreExpired world_stale)
     = Val (Some (asHttpResponse (tagged_entry 0 200 hello) req_ignoreExpired), None) ∧
   transport_calls (log (fixture_Do req_ignoreExpired world_stale)) = [] ∧
   storage_writes (log (fixture_Do req_ignoreExpired world_stale)) = []) ∧
  transport_calls (log (fixture_Do req_ignoreExpired world_empty)) = [req_ignoreExpired].
Proof.
  destruct (@C5_ignoreExpired_serves_stale MemoryProvider fakeRequester Z _ _ _
              fixture_codec fixture_time cache0 req_ignoreExpired world_stale
              eq_refl eq_refl eq_refl) as [Hstale _].
  destruct (@C5_ignoreExpired_serves_stale MemoryProvider fakeRequester Z _ _ _
              fixture_codec fixture_time cache0 req_ignoreExpired world_empty
              eq_refl eq_refl eq_refl) as [_ Hfetch].
  split.
  - apply Hstale; vm_compute; reflexivity.
  - apply Hfetch; vm_compute; reflexivity.
Defined.

(** C6 as stated fails after a 304: the store refuses the write and the
    caller still gets the reconciled response. *)
Lemma C6_write_failure_counterexample :
  req_Method req_expired = MethodGet ∧
  transport_answer (log (fixture_Do req_expired (world_readonly_stale origin_not_modified)))
    = Some (Some (asHttpResponse (tagged_entry 0 304 []) req_expired_tagged), None) ∧
  write_error (log (fixture_Do req_expired (world_readonly_stale origin_not_modified)))
    = Some (ErrForeign "write refused") ∧
  ∃ resp, out (fixture_Do req_expired (world_readonly_stale origin_not_modified))
            = Val (Some resp, None) ∧
          StatusCode resp = StatusNotModified ∧ Body resp = Some (NopCloser hello).
Proof. vm_compute. repeat split. eexists. repeat split. Qed.

(** C6 as amended, on a store that refuses writes: after a full fetch the
    error comes back, after a 304 the response does. *)
Lemma C6_write_failure_witness :
  out (fixture_Do req_expired (world_readonly_stale origin))
    = Val (None, Some (fmt_Errorf "r.store(): "
                         (fmt_Errorf "r.write(): "
                            (fmt_Errorf "provider.Set(): " (ErrForeign "write refused"))))) ∧
  ∃ resp, out (fixture_Do req_expired (world_readonly_stale origin_not_modified))
            = Val (Some resp, None) ∧ Body resp = Some (NopCloser hello).
Proof.
  destruct (@C6_write_failure_after_fetch ReadOnlyProvider fakeRequester Z _ _ _
              fixture_codec fixture_time cache0 req_expired (world_readonly_stale origin)
              (asHttpResponse (tagged_entry 0 200 hello) req_expired_tagged)
              (ErrForeign "write refused") eq_refl)
    as [Hfull _]; [vm_compute; reflexivity ..|].
  destruct (@C6_write_failure_after_fetch ReadOnlyProvider fakeRequester Z _ _ _
              fixture_codec fixture_time cache0 req_expired
              (world_readonly_stale origin_not_modified)
              (asHttpResponse (tagged_entry 0 304 []) req_expired_tagged)
              (ErrForeign "write refused") eq_refl)
    as [_ Hrevalidated]; [vm_compute; reflexivity ..|].
  split.
  - apply Hfull. vm_compute. discriminate.
  - destruct (Hrevalidated eq_refl) as (e & resp' & Hob & Ho & _ & Hb).
    exists resp'. split; [exact Ho|].
    assert (Some e = Some (tagged_entry 0 200 hello)) as [= ->]
      by (rewrite <- Hob; vm_compute; reflexivity).
    exact Hb.
Defined.

(** C7 on the fixtures: a date ahead, a date behind, a value that is
    no date, and no header. *)
Lemma C7_expired_witness :
  out (@expired MemoryProvider fakeRequester Z _ fixture_time
         (hello_entry 0 in_one_hour) world_fresh) = Val false ∧
  out (@expired MemoryProvider fakeRequester Z _ fixture_time
         (hello_entry 0 one_hour_ago) world_fresh) = Val true ∧
  out (@expired MemoryProvider fakeRequester Z _ fixture_time
         (hello_entry 0 "tomorrow") world_fresh) = Val true ∧
  out (@expired MemoryProvider fakeRequester Z _ fixture_time
         {| Ts := 0; entry_StatusCode := 200; Data := hello; Headers := ∅ |}
         world_fresh) = Val true.
Proof.
  split; [|split; [|split]].
  - destruct (@C7_expired_from_Expires_header MemoryProvider fakeRequester Z _
                fixture_time (hello_entry 0 in_one_hour) world_fresh)
      as (_ & _ & Hparsed & _).
    apply (Hparsed in_one_hour 3600); vm_compute; reflexivity.
  - destruct (@C7_expired_from_Expires_header MemoryProvider fakeRequester Z _
                fixture_time (hello_entry 0 one_hour_ago) world_fresh)
      as (_ & _ & Hparsed & _).
    apply (Hparsed one_hour_ago (-3600)); vm_compute; reflexivity.
  - destruct (@C7_expired_from_Expires_header MemoryProvider fakeRequester Z _
                fixture_time (hello_entry 0 "tomorrow") world_fresh)
      as (_ & Hbad & _).
    apply (Hbad "tomorrow" (ErrForeign "parsing time: cannot parse"));
      vm_compute; reflexivity.
  - destruct (@C7_expired_from_Expires_header MemoryProvider fakeRequester Z _
                fixture_time
                {| Ts := 0; entry_StatusCode := 200; Data := hello; Headers := ∅ |}
                world_fresh) as (Hnone & _).
    apply Hnone. vm_compute. reflexivity.
Defined.


(** C10 on the fixtures: the write of a first fetch, and a store with an
    empty value under [regularURL] against the empty store. *)
Lemma C10_zero_ttl_witness :
  (regularURL, encoded (hello_entry 2 in_one_hour), 0)
    ∈ storage_writes (log (fixture_Do req_regular world_empty)) ∧
  (∀ x, x ∈ storage_writes (log (fixture_Do req_regular world_empty)) → x.2 = 0) ∧
  same_behaviour (agree_except regularURL)
    (fixture_Do req_regular world_empty_value) (fixture_Do req_regular world_empty).
Proof.
  destruct (@C10_zero_ttl_and_empty_value MemoryProvider fakeRequester Z _ _ _
              fixture_codec fixture_time (agree_except regularURL)
              (agree_except_respects_Set regularURL)) as [Httl Hempty].
  split; [vm_compute; by left|]. split.
  - intros x. apply (Httl cache0 req_regular world_empty x).
  - apply (Hempty cache0 req_regular world_empty_value world_empty (Some [])
             (provider world_empty_value) (provider world_empty));
      try (vm_compute; reflexivity).
    split; [vm_compute; reflexivity|split; reflexivity].
Defined.

(** * More properties of the engine *)

Section Engine_paths.

Context {P T C : Type}.
Context `{!Provider P, !HttpRequester T, !Clock C, !JsonCodec, !TimeParser}.

Implicit Types (w : World P T C) (r : Cache) (req : Request) (e : cacheEntry).
Implicit Types (ctx : Context) (key : string) (evs : list event).

Lemma errors_Is_refl (err : error) : errors_Is err err = true.
Proof. destruct err; cbn; by rewrite bool_decide_eq_true_2. Qed.

Lemma errors_Is_wrapped (prefix : string) (err target : error) :
  errors_Is err target = true → errors_Is (fmt_Errorf prefix err) target = true.
Proof. intros Hin. cbn. rewrite Hin. apply orb_true_r. Qed.

(** What [Do_fetch] leaves when the transport gave a response that was
    stored: the entry, its encoding, and the accepted write. *)
Lemma Do_fetch_stored req key entry w rq resp rsp :
  OnlyCached (Some (Request_Context req)) = false →
  with_If_None_Match entry req = Val rq →
  (HttpRequester_Do (client w) rq).1 = (Some resp, None) →
  StatusCode resp ≠ StatusNotModified →
  out (Do_fetch req key entry w) = Val (Some rsp, None) →
  ∃ body d,
    Body resp = Some body ∧ read_err body = None ∧
    map_Forall (λ _ v, v ≠ []) (Header_values (resp_Header resp)) ∧
    json_Marshal (entry_of_response (reading 2 (clock w)) resp body) = inl d ∧
    (Set_ (provider w) (Request_Context req) key (Some d) 0).1 = None ∧
    rsp = asHttpResponse (entry_of_response (reading 2 (clock w)) resp body) rq ∧
    log (Do_fetch req key entry w) =
      [EvDo rq (Some resp, None); EvSet key (Some d) 0 None] ∧
    provider (final (Do_fetch req key entry w)) =
      (Set_ (provider w) (Request_Context req) key (Some d) 0).2.
Proof.
  intros Hoc Hrq Ha H304. rewrite Do_fetch_eq, Hoc, Hrq. cbn zeta. rewrite Ha.
  rewrite decide_False by done. cbn [out log final]. rewrite store_eq.
  destruct (Body resp) as [body|]; [|done].
  destruct (read_err body) as [rerr|] eqn:Hr; [done|]. cbn zeta.
  case_decide as Hh; [|done]. cbn [out log final]. rewrite write_eq.
  unfold current_time. cbn [clock provider client].
  change (Now (Now (Now (clock w)).2).2).1 with (reading 2 (clock w)).
  destruct (json_Marshal _) as [d|merr] eqn:Hj; [|done]. cbn.
  destruct (Set_ (provider w) (Request_Context req) key (Some d) 0).1 as [serr|] eqn:Hs;
    [done|].
  cbn. intros [= <-]. exists body, d. by rewrite Hs.
Qed.

(** The same, read off a whole call of [Do]. *)
Lemma Do_stored r req w resp rsp :
  req_Method req = MethodGet →
  transport_answer (log (Do r req w)) = Some (Some resp, None) →
  StatusCode resp ≠ StatusNotModified →
  out (Do r req w) = Val (Some rsp, None) →
  ∃ pre w' rq body d,
    Forall is_read pre ∧ client w' = client w ∧
    Body resp = Some body ∧ read_err body = None ∧
    map_Forall (λ _ v, v ≠ []) (Header_values (resp_Header resp)) ∧
    json_Marshal (entry_of_response (reading 2 (clock w')) resp body) = inl d ∧
    (Set_ (provider w') (Request_Context req) (Cache_key r req) (Some d) 0).1 = None ∧
    rsp = asHttpResponse (entry_of_response (reading 2 (clock w')) resp body) rq ∧
    log (Do r req w) =
      (pre ++ [EvDo rq (Some resp, None);
               EvSet (Cache_key r req) (Some d) 0 None])%list ∧
    provider (final (Do r req w)) =
      (Set_ (provider w') (Request_Context req) (Cache_key r req) (Some d) 0).2 ∧
    clock (final (Do r req w)) = (Now (Now (Now (clock w')).2).2).2.
Proof.
  intros Hm Hans H304 Hout.
  destruct (Do_GET_cases r req w Hm) as [Hall|(pre & w' & Hdo & Hpre & Hc)].
  { apply only_reads in Hall as (_ & _ & Hnone & _). congruence. }
  remember (obtained (log (Do r req w))) as entry eqn:Hentry. clear Hentry.
  rewrite Hdo in Hans, Hout |- *. cbn [prepend out log final] in *.
  destruct (reads_app pre (log (Do_fetch req (Cache_key r req) entry w')) Hpre)
    as (Hta & _).
  rewrite Hta in Hans. apply Do_fetch_answer in Hans as (Hoc & rq & Hrq & Ha).
  destruct (Do_fetch_stored _ _ _ _ _ _ _ Hoc Hrq Ha H304 Hout)
    as (body & d & Hb & Hr & Hh & Hj & Hs & -> & Hl & Hp).
  exists pre, w', rq, body, d.
  rewrite Hl, Hp. repeat split; try done.
  rewrite Do_fetch_eq, Hoc, Hrq. cbn zeta. rewrite Ha, decide_False by done.
  cbn [final]. rewrite store_eq, Hb, Hr. cbn zeta. rewrite decide_True by done.
  cbn [final]. rewrite write_eq. unfold current_time. cbn [clock].
  change (Now (Now (Now (clock w')).2).2).1 with (reading 2 (clock w')).
  by rewrite Hj.
Qed.

(** A call in which the transport answered went through [Do_fetch]. *)
Lemma Do_via_fetch r req w a :
  req_Method req = MethodGet →
  transport_answer (log (Do r req w)) = Some a →
  ∃ pre w' entry rq,
    Forall is_read pre ∧ client w' = client w ∧
    Do r req w = prepend pre (Do_fetch req (Cache_key r req) entry w') ∧
    OnlyCached (Some (Request_Context req)) = false ∧
    with_If_None_Match entry req = Val rq ∧
    (HttpRequester_Do (client w') rq).1 = a.
Proof.
  intros Hm Hans.
  destruct (Do_GET_cases r req w Hm) as [Hall|(pre & w' & Hdo & Hpre & Hc)].
  { apply only_reads in Hall as (_ & _ & Hnone & _). congruence. }
  remember (obtained (log (Do r req w))) as entry eqn:Hentry. clear Hentry.
  rewrite Hdo in Hans. cbn [prepend log] in Hans.
  destruct (reads_app pre (log (Do_fetch req (Cache_key r req) entry w')) Hpre)
    as (Hta & _).
  rewrite Hta in Hans. apply Do_fetch_answer in Hans as (Hoc & rq & Hrq & Ha).
  by exists pre, w', entry, rq.
Qed.

Lemma reads_no_writes pre evs :
  Forall is_read pre → storage_writes (pre ++ evs) = storage_writes evs.
Proof. intros Hpre. by destruct (reads_app pre evs Hpre) as (_ & _ & _ & ->). Qed.

(** X1. A request whose method is not GET goes straight to the transport:
    the answer of the transport is the result, the request is sent as it
    came, and the store and the clock are not touched. *)
Theorem X1_other_methods_pass_through r req w :
  req_Method req ≠ MethodGet →
  out (Do r req w) = Val (HttpRequester_Do (client w) req).1 ∧
  log (Do r req w) = [EvDo req (HttpRequester_Do (client w) req).1] ∧
  provider (final (Do r req w)) = provider w ∧
  clock (final (Do r req w)) = clock w.
Proof. intros Hm. by rewrite (Do_not_GET _ _ _ Hm), httpClient_Do_eq. Qed.

(** X2. When the transport fails on a GET request, the call returns no
    response and the error of the transport wrapped as [http.Do(): ...],
    which [errors.Is] still recognises; nothing is written to the store. *)
Theorem X2_transport_error_is_returned r req w resp err :
  req_Method req = MethodGet →
  transport_answer (log (Do r req w)) = Some (resp, Some err) →
  out (Do r req w) = Val (None, Some (fmt_Errorf "http.Do(): " err)) ∧
  errors_Is (fmt_Errorf "http.Do(): " err) err = true ∧
  storage_writes (log (Do r req w)) = [].
Proof.
  intros Hm Hans.
  destruct (Do_via_fetch r req w _ Hm Hans)
    as (pre & w' & entry & rq & Hpre & Hc & -> & Hoc & Hrq & Ha).
  cbn [prepend out log]. rewrite (reads_no_writes _ _ Hpre).
  rewrite Do_fetch_eq, Hoc, Hrq. cbn zeta. rewrite Ha.
  split; [by destruct resp|]. split; [|by destruct resp].
  apply errors_Is_wrapped, errors_Is_refl.
Qed.

(** X3. When the provider fails to read on a GET request (ignoreCache not
    set) and its error is none of the cache's own sentinels, the call stops
    there: the error comes back wrapped as [provider.Get(): ...], still
    recognised by [errors.Is]; no request is sent and nothing is written. *)
Theorem X3_storage_read_error_is_returned r req w err :
  req_Method req = MethodGet →
  IgnoreCache (Some (Request_Context req)) = false →
  stored r req w = Failed err →
  errors_Is err ErrCacheExpired = false →
  errors_Is err ErrCacheExpiryIgnored = false →
  out (Do r req w) = Val (None, Some (fmt_Errorf "provider.Get(): " err)) ∧
  errors_Is (fmt_Errorf "provider.Get(): " err) err = true ∧
  transport_calls (log (Do r req w)) = [] ∧
  storage_writes (log (Do r req w)) = [] ∧
  client (final (Do r req w)) = client w.
Proof.
  intros Hm Hic Hst He1 He2. rewrite (Do_GET_eq _ _ _ Hm). cbn zeta.
  rewrite Hic, Hst. cbn [errors_Is]. rewrite He1, He2.
  rewrite !bool_decide_eq_false_2 by done. cbn.
  repeat split. by rewrite errors_Is_refl, orb_true_r.
Qed.

(** X4. A read error of the provider that is, or wraps, [ErrCacheExpired]
    is taken for an expired entry: the error is dropped and the call goes on
    without an entry (a fetch, or [ErrCacheMiss] under onlyCached).  One
    that wraps [ErrCacheExpiryIgnored] makes the call panic on the nil
    entry, before any request is sent. *)
Theorem X4_storage_error_taken_for_a_sentinel r req w err :
  req_Method req = MethodGet →
  IgnoreCache (Some (Request_Context req)) = false →
  stored r req w = Failed err →
  (errors_Is err ErrCacheExpired = true →
     (OnlyCached (Some (Request_Context req)) = true →
        out (Do r req w) = Val (None, Some ErrCacheMiss)) ∧
     (OnlyCached (Some (Request_Context req)) = false →
        transport_calls (log (Do r req w)) = [req])) ∧
  (errors_Is err ErrCacheExpired = false →
   errors_Is err ErrCacheExpiryIgnored = true →
     out (Do r req w) = Panic nil_dereference ∧
     transport_calls (log (Do r req w)) = []).
Proof.
  intros Hm Hic Hst. rewrite (Do_GET_eq _ _ _ Hm). cbn zeta.
  rewrite Hic, Hst. cbn [errors_Is]. rewrite !bool_decide_eq_false_2 by done.
  cbn [orb]. split.
  - intros ->. set (w1 := {| provider := _ |}). split; intros Hoc.
    + by rewrite (Do_fetch_only_cached _ _ _ _ Hoc).
    + destruct (Do_fetch_log_no_entry req (Cache_key r req) w1 Hoc) as (evs & Hl & Hall).
      destruct (only_writes evs Hall) as (Htc & _).
      cbn [prepend log]. rewrite Hl. cbn. fold (transport_calls evs). by rewrite Htc.
  - by intros -> ->.
Qed.

Lemma Do_fetch_shape req key entry w resp err :
  out (Do_fetch req key entry w) = Val (resp, err) →
  (∃ rs b, resp = Some rs ∧ err = None ∧ Body rs = Some b ∧ read_err b = None) ∨
  (resp = None ∧ is_Some err).
Proof.
  rewrite Do_fetch_eq. destruct (OnlyCached _).
  { destruct entry as [e|]; cbn; intros [= <- <-]; [left; by eexists _, _|by right]. }
  destruct (with_If_None_Match entry req) as [rq|s]; [|done].
  cbn zeta. destruct (HttpRequester_Do _ _).1 as [[rs|] [terr|]]; cbn;
    try (intros [= <- <-]; by right); try done.
  case_decide.
  - destruct entry as [e|]; cbn; [|intros [= <- <-]; by right].
    destruct (carry_headers e rs) as [rs'|s]; cbn; [|done].
    intros [= <- <-]. left. by eexists _, _.
  - destruct (out (store _ _ _ _)) as [[[e|] [serr|]]|]; cbn;
      try (intros [= <- <-]; by right); try done.
    intros [= <- <-]. left. by eexists _, _.
Qed.

(** X5. A call on a GET request that does not panic returns either a
    response and no error, or an error and no response, never both and never
    neither; and a returned response always has a body that reads to its end
    without error. *)
Theorem X5_response_or_error r req w resp err :
  req_Method req = MethodGet →
  out (Do r req w) = Val (resp, err) →
  (∃ rs b, resp = Some rs ∧ err = None ∧ Body rs = Some b ∧ read_err b = None) ∨
  (resp = None ∧ is_Some err).
Proof.
  intros Hm. rewrite (Do_GET_eq _ _ _ Hm). cbn zeta.
  destruct (IgnoreCache _); [apply Do_fetch_shape|].
  destruct (stored r req w) as [|e|serr]; cbn zeta.
  - apply Do_fetch_shape.
  - destruct (expired_at e (current_time w)); [destruct (IgnoreExpired _)|]; cbn;
      try apply Do_fetch_shape; intros [= <- <-]; left; by eexists _, _.
  - destruct (errors_Is _ ErrCacheExpired); [apply Do_fetch_shape|].
    destruct (errors_Is _ _); cbn; [done|]. intros [= <- <-]. by right.
Qed.

Lemma write_log_shape ctx key e w :
  log (write ctx key e w) = [] ∨ ∃ d a, log (write ctx key e w) = [EvSet key (Some d) 0 a].
Proof. rewrite write_eq. destruct (json_Marshal e) as [d|]; [right|left]; by eauto. Qed.

Lemma store_log_shape ctx key resp w :
  log (store ctx key resp w) = [] ∨
  ∃ d a, log (store ctx key resp w) = [EvSet key (Some d) 0 a].
Proof.
  rewrite store_eq. destruct (Body resp) as [body|]; [|by left].
  destruct (read_err body); [by left|]. cbn zeta.
  case_decide; [|by left]. apply write_log_shape.
Qed.

Lemma with_If_None_Match_cases entry req rq :
  with_If_None_Match entry req = Val rq →
  rq = req ∨ ∃ etag, Request_SetHeader req "If-None-Match" etag = Val rq.
Proof.
  destruct entry as [e|]; cbn; [|intros [= <-]; by left].
  destruct (Headers e !! "ETag") as [etag|]; [|intros [= <-]; by left].
  case_decide; [right; by eexists|intros [= <-]; by left].
Qed.

Lemma Do_fetch_log_shape req key entry w :
  ∃ d s, log (Do_fetch req key entry w) = (d ++ s)%list ∧
    (d = [] ∨ ∃ rq a, d = [EvDo rq a] ∧
       (rq = req ∨ ∃ etag, Request_SetHeader req "If-None-Match" etag = Val rq)) ∧
    (s = [] ∨ ∃ v a, s = [EvSet key (Some v) 0 a] ∧ d ≠ []).
Proof.
  rewrite Do_fetch_eq. destruct (OnlyCached _).
  { exists [], []. repeat split; by left. }
  destruct (with_If_None_Match entry req) as [rq|s0] eqn:Hrq.
  2: { exists [], []. repeat split; by left. }
  cbn zeta.
  assert (∀ a s, (s = [] ∨ ∃ v b, s = [EvSet key (Some v) 0 b]) →
    ∃ d s', (EvDo rq a :: s = d ++ s')%list ∧
      (d = [] ∨ ∃ rq' a', d = [EvDo rq' a'] ∧
         (rq' = req ∨ ∃ etag, Request_SetHeader req "If-None-Match" etag = Val rq')) ∧
      (s' = [] ∨ ∃ v b, s' = [EvSet key (Some v) 0 b] ∧ d ≠ [])) as Hgo.
  { intros a s Hs. exists [EvDo rq a], s. split; [done|]. split.
    - right. exists rq, a. split; [done|]. by apply (with_If_None_Match_cases entry).
    - destruct Hs as [->|(v & b & ->)]; [by left|right]. by exists v, b. }
  destruct (HttpRequester_Do _ _).1 as [[rs|] [terr|]]; cbn [log];
    try (apply Hgo; by left).
  case_decide.
  - destruct entry as [e|]; cbn [log]; [|apply Hgo; by left].
    destruct (carry_headers e rs); cbn [log]; [|apply Hgo; by left].
    apply Hgo, write_log_shape.
  - cbn [log]. apply Hgo, store_log_shape.
Qed.

(** X6. One call of [Do] makes at most one read of the store, then at most
    one request to the transport, then at most one write, in that order; it
    reads and writes under the key of the request only, writes with expiry
    zero and only after a request was sent, and the request it sends is the
    caller's, changed at most in its [If-None-Match] header. *)
Theorem X6_footprint_of_a_call r req w :
  ∃ g d s, log (Do r req w) = (g ++ d ++ s)%list ∧
    (g = [] ∨ ∃ a, g = [EvGet (Cache_key r req) a]) ∧
    (d = [] ∨ ∃ rq a, d = [EvDo rq a] ∧
       (rq = req ∨ ∃ etag, Request_SetHeader req "If-None-Match" etag = Val rq)) ∧
    (s = [] ∨ ∃ v a, s = [EvSet (Cache_key r req) (Some v) 0 a] ∧ d ≠ []).
Proof.
  destruct (decide (req_Method req = MethodGet)) as [Hm|Hm].
  - assert (∀ g entry w', (g = [] ∨ ∃ a, g = [EvGet (Cache_key r req) a]) →
      ∃ g' d s, (g ++ log (Do_fetch req (Cache_key r req) entry w') = g' ++ d ++ s)%list ∧
        (g' = [] ∨ ∃ a, g' = [EvGet (Cache_key r req) a]) ∧
        (d = [] ∨ ∃ rq a, d = [EvDo rq a] ∧
           (rq = req ∨ ∃ etag, Request_SetHeader req "If-None-Match" etag = Val rq)) ∧
        (s = [] ∨ ∃ v a, s = [EvSet (Cache_key r req) (Some v) 0 a] ∧ d ≠ [])) as Hgo.
    { intros g entry w' Hg.
      destruct (Do_fetch_log_shape req (Cache_key r req) entry w') as (d & s & -> & Hd & Hs).
      by exists g, d, s. }
    assert (∀ a, ∃ g' d s,
        ([EvGet (Cache_key r req) a] = g' ++ d ++ s)%list ∧
        (g' = [] ∨ ∃ a, g' = [EvGet (Cache_key r req) a]) ∧
        (d = [] ∨ ∃ rq a, d = [EvDo rq a] ∧
           (rq = req ∨ ∃ etag, Request_SetHeader req "If-None-Match" etag = Val rq)) ∧
        (s = [] ∨ ∃ v a, s = [EvSet (Cache_key r req) (Some v) 0 a] ∧ d ≠ [])) as Hread.
    { intros a. exists [EvGet (Cache_key r req) a], [], [].
      repeat split; [right; by eexists|by left|by left]. }
    rewrite (Do_GET_eq _ _ _ Hm). cbn zeta.
    destruct (IgnoreCache _); [apply (Hgo []); by left|].
    destruct (stored r req w) as [|e|serr]; cbn zeta.
    + apply (Hgo [_]). right. by eexists.
    + destruct (expired_at e (current_time w)); [destruct (IgnoreExpired _)|];
        cbn [log prepend]; try apply Hread. apply (Hgo [_]). right. by eexists.
    + destruct (errors_Is _ ErrCacheExpired); [apply (Hgo [_]); right; by eexists|].
      destruct (errors_Is _ _); cbn [log]; apply Hread.
  - rewrite (Do_not_GET _ _ _ Hm), httpClient_Do_eq. cbn [log].
    exists [], [EvDo req (HttpRequester_Do (client w) req).1], [].
    repeat split; [by left| |by left]. right. eexists _, _. split; [done|by left].
Qed.

(** X7. A response returned on a GET request after the transport answered
    with a status other than 304 has been persisted first: exactly one write
    was issued, under the key of the request, with the encoding of an entry,
    and the provider accepted it. *)
Theorem X7_returned_after_fetch_means_stored r req w resp rsp :
  req_Method req = MethodGet →
  transport_answer (log (Do r req w)) = Some (Some resp, None) →
  StatusCode resp ≠ StatusNotModified →
  out (Do r req w) = Val (Some rsp, None) →
  ∃ e d, json_Marshal e = inl d ∧
    storage_writes (log (Do r req w)) = [(Cache_key r req, Some d, 0)] ∧
    write_error (log (Do r req w)) = None ∧
    entry_StatusCode e = StatusCode resp ∧
    StatusCode rsp = entry_StatusCode e ∧
    Body rsp = Some (NopCloser (Data e)).
Proof.
  intros Hm Hans H304 Hout.
  destruct (Do_stored r req w resp rsp Hm Hans H304 Hout)
    as (pre & w' & rq & body & d & Hpre & Hc & Hb & Hr & Hh & Hj & Hs & -> & Hl & _).
  eexists _, d. split; [exact Hj|]. rewrite Hl.
  destruct (reads_app pre
    [EvDo rq (Some resp, None); EvSet (Cache_key r req) (Some d) 0 None] Hpre)
    as (_ & -> & _ & ->).
  done.
Qed.

(** X8. The response returned after such a fetch is the transport's with
    its headers collapsed: same status, the bytes of its body, a content
    length equal to their number, and for every header name only the first
    of the values the transport gave. *)
Theorem X8_fetched_response_is_collapsed r req w resp rsp :
  req_Method req = MethodGet →
  transport_answer (log (Do r req w)) = Some (Some resp, None) →
  StatusCode resp ≠ StatusNotModified →
  out (Do r req w) = Val (Some rsp, None) →
  StatusCode rsp = StatusCode resp ∧
  (∃ body, Body resp = Some body ∧ Body rsp = Some (NopCloser (stream body)) ∧
           ContentLength rsp = Z.of_nat (length (stream body))) ∧
  (∀ k, Header_values (resp_Header rsp) !! k
        = (λ v, [v]) <$> (Header_values (resp_Header resp) !! k ≫= head)).
Proof.
  intros Hm Hans H304 Hout.
  destruct (Do_stored r req w resp rsp Hm Hans H304 Hout)
    as (pre & w' & rq & body & d & Hpre & Hc & Hb & Hr & Hh & Hj & Hs & -> & Hl & _).
  split; [done|]. split; [by exists body|].
  intros k. cbn. by rewrite lookup_fmap, lookup_omap.
Qed.

(** X9. Three answers of the transport make a GET call panic, each before
    anything is written: no response and no error; a response other than 304
    without a body; a response other than 304 with a header that has an
    empty list of values. *)
Theorem X9_panics_on_malformed_answers r req w :
  req_Method req = MethodGet →
  (transport_answer (log (Do r req w)) = Some (None, None) →
     out (Do r req w) = Panic nil_dereference ∧ storage_writes (log (Do r req w)) = []) ∧
  (∀ resp, transport_answer (log (Do r req w)) = Some (Some resp, None) →
     StatusCode resp ≠ StatusNotModified → Body resp = None →
     out (Do r req w) = Panic nil_dereference ∧ storage_writes (log (Do r req w)) = []) ∧
  (∀ resp body k, transport_answer (log (Do r req w)) = Some (Some resp, None) →
     StatusCode resp ≠ StatusNotModified →
     Body resp = Some body → read_err body = None →
     Header_values (resp_Header resp) !! k = Some [] →
     out (Do r req w) = Panic "index out of range [0] with length 0" ∧
     storage_writes (log (Do r req w)) = []).
Proof.
  intros Hm. split; [|split].
  - intros Hans.
    destruct (Do_via_fetch r req w _ Hm Hans)
      as (pre & w' & entry & rq & Hpre & Hc & -> & Hoc & Hrq & Ha).
    cbn [prepend out log]. rewrite (reads_no_writes _ _ Hpre).
    by rewrite Do_fetch_eq, Hoc, Hrq; cbn zeta; rewrite Ha.
  - intros resp Hans H304 Hb.
    destruct (Do_via_fetch r req w _ Hm Hans)
      as (pre & w' & entry & rq & Hpre & Hc & -> & Hoc & Hrq & Ha).
    cbn [prepend out log]. rewrite (reads_no_writes _ _ Hpre).
    rewrite Do_fetch_eq, Hoc, Hrq; cbn zeta; rewrite Ha, decide_False by done.
    cbn [out log]. by rewrite store_eq, Hb.
  - intros resp body k Hans H304 Hb Hr Hk.
    destruct (Do_via_fetch r req w _ Hm Hans)
      as (pre & w' & entry & rq & Hpre & Hc & -> & Hoc & Hrq & Ha).
    cbn [prepend out log]. rewrite (reads_no_writes _ _ Hpre).
    rewrite Do_fetch_eq, Hoc, Hrq; cbn zeta; rewrite Ha, decide_False by done.
    cbn [out log]. rewrite store_eq, Hb, Hr. cbn zeta.
    rewrite decide_False; [done|]. intros Hall. by apply (Hall k []).
Qed.

(** X10. When the body of a fetched response (status other than 304) fails
    while it is read, the call returns that error wrapped as
    [r.store(): io.ReadAll(): ...] and nothing is written. *)
Theorem X10_body_read_error_is_returned r req w resp body err :
  req_Method req = MethodGet →
  transport_answer (log (Do r req w)) = Some (Some resp, None) →
  StatusCode resp ≠ StatusNotModified →
  Body resp = Some body → read_err body = Some err →
  out (Do r req w) =
    Val (None, Some (fmt_Errorf "r.store(): " (fmt_Errorf "io.ReadAll(): " err))) ∧
  storage_writes (log (Do r req w)) = [].
Proof.
  intros Hm Hans H304 Hb Hr.
  destruct (Do_via_fetch r req w _ Hm Hans)
    as (pre & w' & entry & rq & Hpre & Hc & -> & Hoc & Hrq & Ha).
  cbn [prepend out log]. rewrite (reads_no_writes _ _ Hpre).
  rewrite Do_fetch_eq, Hoc, Hrq; cbn zeta; rewrite Ha, decide_False by done.
  cbn [out log]. by rewrite store_eq, Hb, Hr.
Qed.

(** *** What the store holds after a call *)

Lemma decode_encoded e d :
  codec_round_trip → json_Marshal e = inl d → decode (Some d) = Some e.
Proof.
  intros Hrt Hj. destruct (Hrt e d Hj) as [Hne Hu]. unfold decode.
  rewrite decide_False by (by destruct d). cbn. by rewrite Hu.
Qed.

Lemma expired_at_later e now now' :
  now ≤ now' → expired_at e now = true → expired_at e now' = true.
Proof.
  unfold expired_at. intros Hle.
  destruct (Headers e !! "Expires") as [x|]; [|done].
  destruct (time_Parse RFC1123 x) as [t|]; [|done].
  rewrite !bool_decide_eq_true. lia.
Qed.

(** X11. With a provider that gives back what it accepted and a codec that
    decodes what it encoded: once a GET call has fetched and returned a
    response whose [Expires] date has not passed, the next GET call with the
    same key (and without ignoreCache) is answered from the store with the
    same status, body and headers, and sends nothing to the transport. *)
Theorem X11_fetched_then_served r req req2 w resp rsp x xs t :
  get_after_set → codec_round_trip →
  req_Method req = MethodGet → req_Method req2 = MethodGet →
  Cache_key r req2 = Cache_key r req →
  IgnoreCache (Some (Request_Context req2)) = false →
  transport_answer (log (Do r req w)) = Some (Some resp, None) →
  StatusCode resp ≠ StatusNotModified →
  out (Do r req w) = Val (Some rsp, None) →
  Header_values (resp_Header resp) !! "Expires" = Some (x :: xs) →
  time_Parse RFC1123 x = inl t →
  current_time (final (Do r req w)) ≤ t →
  ∃ rsp2, out (Do r req2 (final (Do r req w))) = Val (Some rsp2, None) ∧
    StatusCode rsp2 = StatusCode rsp ∧
    Body rsp2 = Body rsp ∧
    resp_Header rsp2 = resp_Header rsp ∧
    transport_calls (log (Do r req2 (final (Do r req w)))) = [].
Proof.
  intros Hlaw Hrt Hm Hm2 Hkey Hic2 Hans H304 Hout Hx Hp Hnow.
  destruct (Do_stored r req w resp rsp Hm Hans H304 Hout)
    as (pre & w' & rq & body & d & Hpre & Hc & Hb & Hr & Hh & Hj & Hs & -> & Hl & Hprov & _).
  set (e := entry_of_response (reading 2 (clock w')) resp body) in *.
  set (wf := final (Do r req w)) in *.
  assert (stored r req2 wf = Stored e) as Hst.
  { unfold stored. rewrite Hkey, Hprov, (Hlaw _ _ _ _ _ _ Hs).
    by rewrite (decode_encoded e d Hrt Hj). }
  assert (expired_at e (current_time wf) = false) as Hfresh.
  { unfold expired_at. cbn. rewrite lookup_omap, Hx. cbn. rewrite Hp.
    apply bool_decide_eq_false. lia. }
  destruct (Do_hit r req2 wf e Hm2 Hic2 Hst Hfresh) as (Ho & Hlog & _).
  exists (asHttpResponse e req2). by rewrite Ho, Hlog.
Qed.

(** *** The conditional header *)

(** With an expired entry carried forward from the read step, [Do] is the
    read followed by [Do_fetch] with that entry. *)
Lemma Do_carried_forward r req w e :
  req_Method req = MethodGet →
  IgnoreCache (Some (Request_Context req)) = false →
  IgnoreExpired (Some (Request_Context req)) = false →
  stored r req w = Stored e →
  expired_at e (current_time w) = true →
  ∃ a w1, client w1 = client w ∧
    Do r req w = prepend [EvGet (Cache_key r req) a]
                   (Do_fetch req (Cache_key r req) (Some e) w1).
Proof.
  intros Hm Hic Hie Hst Hex. rewrite (Do_GET_eq _ _ _ Hm). cbn zeta.
  rewrite Hic, Hst, Hex, Hie. eexists _, _. split; [|done].
  by destruct (expired_final e
    {| provider := (Get (provider w) (Request_Context req) (Cache_key r req)).2;
       client := client w; clock := clock w |}).
Qed.

Lemma Do_fetch_sends req key entry w rq :
  OnlyCached (Some (Request_Context req)) = false →
  with_If_None_Match entry req = Val rq →
  transport_calls (log (Do_fetch req key entry w)) = [rq].
Proof.
  intros Hoc Hrq. pose proof (Do_fetch_log req key entry w) as Hl.
  rewrite Hoc, Hrq in Hl. destruct Hl as (evs & -> & Hall).
  destruct (only_writes evs Hall) as (Htc & _).
  cbn. fold (transport_calls evs). by rewrite Htc.
Qed.

Lemma Do_fetch_header_panic req key entry w s :
  OnlyCached (Some (Request_Context req)) = false →
  with_If_None_Match entry req = Panic s →
  Do_fetch req key entry w = mkRun (Panic s) w [].
Proof. intros Hoc Hrq. by rewrite Do_fetch_eq, Hoc, Hrq. Qed.

(** C8, where the code departs from the claim.  The entity tag of an entry
    is looked up under the name [ETag] exactly as written (cache.go:177),
    while [store] keeps each header under the name the response gave it
    (cache.go:107-109), and the responses that [net/http] reads have their
    names in canonical form, in which the tag is under [Etag].  So after a
    response with an entity tag under [Etag] was fetched, stored and
    returned, and once the entry has expired, the next GET call with the
    same key finds the entry, with its tag, and sends its request as it
    came: no [If-None-Match] is attached and no revalidation takes place. *)
Theorem C8_tag_under_Etag_is_not_sent r req req2 w resp rsp tag tags :
  get_after_set → codec_round_trip →
  req_Method req = MethodGet → req_Method req2 = MethodGet →
  Cache_key r req2 = Cache_key r req →
  IgnoreCache (Some (Request_Context req2)) = false →
  IgnoreExpired (Some (Request_Context req2)) = false →
  OnlyCached (Some (Request_Context req2)) = false →
  transport_answer (log (Do r req w)) = Some (Some resp, None) →
  StatusCode resp ≠ StatusNotModified →
  out (Do r req w) = Val (Some rsp, None) →
  Header_values (resp_Header resp) !! "Etag" = Some (tag :: tags) →
  tag ≠ "" →
  Header_values (resp_Header resp) !! "ETag" = None →
  (∀ x xs t, Header_values (resp_Header resp) !! "Expires" = Some (x :: xs) →
             time_Parse RFC1123 x = inl t → t < current_time (final (Do r req w))) →
  ∃ e, stored r req2 (final (Do r req w)) = Stored e ∧
       Headers e !! "Etag" = Some tag ∧
       expired_at e (current_time (final (Do r req w))) = true ∧
       transport_calls (log (Do r req2 (final (Do r req w)))) = [req2].
Proof.
  intros Hlaw Hrt Hm Hm2 Hkey Hic2 Hie2 Hoc2 Hans H304 Hout Htag Hne Hnone Hexp.
  destruct (Do_stored r req w resp rsp Hm Hans H304 Hout)
    as (pre & w' & rq & body & d & Hpre & Hc & Hb & Hr & Hh & Hj & Hs & -> & Hl & Hprov & _).
  set (e := entry_of_response (reading 2 (clock w')) resp body) in *.
  set (wf := final (Do r req w)) in *.
  assert (stored r req2 wf = Stored e) as Hst.
  { unfold stored. rewrite Hkey, Hprov, (Hlaw _ _ _ _ _ _ Hs).
    by rewrite (decode_encoded e d Hrt Hj). }
  assert (Headers e !! "Etag" = Some tag) as Het.
  { cbn. by rewrite lookup_omap, Htag. }
  assert (Headers e !! "ETag" = None) as Hno.
  { cbn. by rewrite lookup_omap, Hnone. }
  assert (expired_at e (current_time wf) = true) as Hex.
  { unfold expired_at. cbn. rewrite lookup_omap.
    destruct (Header_values (resp_Header resp) !! "Expires") as [[|x xs]|] eqn:Hx;
      cbn; [by destruct (Hh _ _ Hx)| |done].
    destruct (time_Parse RFC1123 x) as [t|] eqn:Hp; [|done].
    apply bool_decide_eq_true. by apply (Hexp x xs t). }
  exists e. split; [done|]. split; [done|]. split; [done|].
  destruct (Do_carried_forward r req2 wf e Hm2 Hic2 Hie2 Hst Hex) as (a & w1 & _ & ->).
  cbn [prepend log]. cbn [transport_calls omap app].
  fold (transport_calls (log (Do_fetch req2 (Cache_key r req2) (Some e) w1))).
  apply Do_fetch_sends; [done|]. unfold with_If_None_Match. by rewrite Hno.
Qed.

(** X12. With such a provider and codec: after a 304 revalidation of an
    expired entry whose re-persist was issued and accepted, what was written
    is the encoding of that entry, under the key of the request, and the
    store holds the same entry as before; nothing of the 304 response
    reaches the store, and the entry is expired at every instant from the
    one of the call on. *)
Theorem X12_revalidation_keeps_the_entry r req w e resp k v x :
  get_after_set → codec_round_trip →
  req_Method req = MethodGet →
  IgnoreCache (Some (Request_Context req)) = false →
  IgnoreExpired (Some (Request_Context req)) = false →
  OnlyCached (Some (Request_Context req)) = false →
  stored r req w = Stored e →
  expired_at e (current_time w) = true →
  transport_answer (log (Do r req w)) = Some (Some resp, None) →
  StatusCode resp = StatusNotModified →
  EvSet k v x None ∈ log (Do r req w) →
  (∃ d, json_Marshal e = inl d ∧
        (k, v, x) = (Cache_key r req, Some d, 0) ∧
        storage_writes (log (Do r req w)) = [(Cache_key r req, Some d, 0)]) ∧
  stored r req (final (Do r req w)) = Stored e ∧
  (∀ now, current_time w ≤ now → expired_at e now = true).
Proof.
  intros Hlaw Hrt Hm Hic Hie Hoc Hst Hex Hans H304 Hset.
  split; [|split].
  3: { intros now Hle. by apply (expired_at_later e (current_time w)). }
  all: pose proof (Do_GET_eq r req w Hm) as Hdo; cbn zeta in Hdo;
    rewrite Hic, Hst, Hex, Hie in Hdo;
    set (w1 := final (expired e _)) in Hdo;
    rewrite Hdo in Hans, Hset |- *; cbn [prepend log final] in *;
    change (transport_answer (log (Do_fetch req (Cache_key r req) (Some e) w1))
            = Some (Some resp, None)) in Hans;
    apply Do_fetch_answer in Hans as (_ & rq & Hrq & Ha);
    rewrite Do_fetch_eq, Hoc, Hrq in Hset |- *; cbn zeta in *;
    rewrite Ha in Hset |- *; rewrite decide_True in Hset |- * by done;
    (destruct (carry_headers e resp) as [resp'|s];
       [|cbn in Hset; set_unfold in Hset; by destruct Hset as [?|[?|[]]]]);
    cbn [log final] in *; rewrite write_eq in Hset |- *;
    (destruct (json_Marshal e) as [d|merr] eqn:Hj;
       [|cbn in Hset; set_unfold in Hset; by destruct Hset as [?|[?|[]]]]);
    cbn in Hset |- *; set_unfold in Hset;
    destruct Hset as [?|[?|[Heq|[]]]]; try done;
    injection Heq as -> -> -> Hs.
  - by exists d.
  - unfold stored. cbn [provider]. symmetry in Hs. rewrite (Hlaw _ _ _ _ _ _ Hs).
    by rewrite (decode_encoded e d Hrt Hj).
Qed.

(** X24. On a GET request that carries an expired entry forward from the
    read step (no override flag set): when the entry holds a non-empty value
    under the name [ETag], exactly as written, the one request sent is the
    caller's with [If-None-Match] set to that value, provided the request has
    a header map; a request without one makes [Header.Set] panic before
    anything is sent or written.  When the entry holds nothing under that
    name, or the empty text, the request is sent as it came. *)
Theorem X24_ETag_becomes_If_None_Match r req w e :
  req_Method req = MethodGet →
  IgnoreCache (Some (Request_Context req)) = false →
  IgnoreExpired (Some (Request_Context req)) = false →
  OnlyCached (Some (Request_Context req)) = false →
  stored r req w = Stored e →
  expired_at e (current_time w) = true →
  (∀ etag, Headers e !! "ETag" = Some etag → etag ≠ "" →
     (∀ m, req_Header req = Some m →
        transport_calls (log (Do r req w)) =
          [{| req_Method := req_Method req; req_URL := req_URL req;
              req_Header := Some (<["If-None-Match" := [etag]]> m);
              req_ctx := req_ctx req |}]) ∧
     (req_Header req = None →
        out (Do r req w) = Panic nil_map_assignment ∧
        transport_calls (log (Do r req w)) = [] ∧
        storage_writes (log (Do r req w)) = [])) ∧
  (Headers e !! "ETag" = None ∨ Headers e !! "ETag" = Some "" →
     transport_calls (log (Do r req w)) = [req]).
Proof.
  intros Hm Hic Hie Hoc Hst Hex.
  destruct (Do_carried_forward r req w e Hm Hic Hie Hst Hex) as (a & w1 & _ & ->).
  cbn [prepend log out]. cbn [transport_calls storage_writes omap app].
  fold (transport_calls (log (Do_fetch req (Cache_key r req) (Some e) w1))).
  fold (storage_writes (log (Do_fetch req (Cache_key r req) (Some e) w1))).
  split.
  - intros etag Het Hne. split.
    + intros m Hh. apply Do_fetch_sends; [done|]. cbn. rewrite Het.
      rewrite decide_True by done. unfold Request_SetHeader. by rewrite Hh.
    + intros Hh. rewrite (Do_fetch_header_panic _ _ _ _ nil_map_assignment Hoc); [done|].
      cbn. rewrite Het. rewrite decide_True by done.
      unfold Request_SetHeader. by rewrite Hh.
  - intros Het. apply Do_fetch_sends; [done|]. cbn.
    destruct Het as [->| ->]; [done|]. by rewrite decide_False by (by intros []).
Qed.

(** *** The entry model *)

Lemma first_values_of_single (h : gmap string string) :
  map_Forall (λ _ (v : list string), v ≠ []) ((λ v, [v]) <$> h) ∧
  omap head ((λ v, [v]) <$> h) = h.
Proof.
  split.
  - intros k v Hkv. apply lookup_fmap_Some in Hkv as (x & <- & _). done.
  - apply map_eq. intros k. rewrite lookup_omap, lookup_fmap.
    by destruct (h !! k).
Qed.

(** X13. Storing the response rebuilt from an entry never panics and, when
    the write goes through, gives the same entry again with a new
    timestamp: same status, same bytes, same headers. *)
Theorem X13_store_of_rebuilt_response ctx key e req w :
  ∃ o, out (store ctx key (asHttpResponse e req) w) = Val o ∧
    (o.2 = None →
     o.1 = Some {| Ts := current_time w; entry_StatusCode := entry_StatusCode e;
                   Data := Data e; Headers := Headers e |}).
Proof.
  rewrite store_eq.
  cbn [asHttpResponse Body NopCloser read_err resp_Header Header_values default from_option id].
  cbn zeta. destruct (first_values_of_single (Headers e)) as [Hall Hsame].
  rewrite decide_True by done. unfold entry_of_response.
  cbn [asHttpResponse NopCloser StatusCode stream resp_Header Header_values default from_option id].
  rewrite Hsame. cbn [out].
  destruct (out (write _ _ _ _)) as [[err|]|s] eqn:Hw.
  - by eexists.
  - by eexists.
  - destruct (write_out ctx key
      {| Ts := current_time w; entry_StatusCode := entry_StatusCode e;
         Data := Data e; Headers := Headers e |}
      {| provider := provider w; client := client w; clock := (Now (clock w)).2 |})
      as [o Ho]. congruence.
Qed.

(** X14. An entry found expired stays expired at every later instant:
    freshness never comes back by waiting. *)
Theorem X14_expired_stays_expired e w w' :
  current_time w ≤ current_time w' →
  out (expired e w) = Val true →
  out (expired e w') = Val true.
Proof.
  rewrite (expired_eq e w), (expired_eq e w'). cbn. intros Hle [= Hex].
  by rewrite (expired_at_later e _ _ Hle Hex).
Qed.

End Engine_paths.

(** * The context flags *)

(** X15. A flag reads back as it was last set, whatever the context it was
    set on held before, also when that is an earlier setting of the same
    flag. *)
Theorem X15_flag_reads_back ctx b b' :
  IgnoreExpired (Some (WithIgnoreExpired ctx b)) = b ∧
  IgnoreCache (Some (WithIgnoreCache ctx b)) = b ∧
  OnlyCached (Some (WithOnlyCached ctx b)) = b ∧
  IgnoreExpired (Some (WithIgnoreExpired (WithIgnoreExpired ctx b') b)) = b ∧
  IgnoreCache (Some (WithIgnoreCache (WithIgnoreCache ctx b') b)) = b ∧
  OnlyCached (Some (WithOnlyCached (WithOnlyCached ctx b') b)) = b.
Proof. repeat split. Qed.

(** X16. Setting one flag changes no other: the two other flags read on
    the new context as on the one it was made from; and the context it was
    made from reads as before (a flag never not set reads false). *)
Theorem X16_flags_are_independent ctx b :
  IgnoreCache (Some (WithIgnoreExpired ctx b)) = IgnoreCache (Some ctx) ∧
  OnlyCached (Some (WithIgnoreExpired ctx b)) = OnlyCached (Some ctx) ∧
  IgnoreExpired (Some (WithIgnoreCache ctx b)) = IgnoreExpired (Some ctx) ∧
  OnlyCached (Some (WithIgnoreCache ctx b)) = OnlyCached (Some ctx) ∧
  IgnoreExpired (Some (WithOnlyCached ctx b)) = IgnoreExpired (Some ctx) ∧
  IgnoreCache (Some (WithOnlyCached ctx b)) = IgnoreCache (Some ctx) ∧
  (Value ctx contextKeyIgnoreExpired = None → IgnoreExpired (Some ctx) = false) ∧
  (Value ctx contextKeyIgnoreCache = None → IgnoreCache (Some ctx) = false) ∧
  (Value ctx contextKeyOnlyCached = None → OnlyCached (Some ctx) = false).
Proof. repeat split; cbn; by intros ->. Qed.

(** * The in-memory provider *)

Lemma MemoryProvider_Get_state p ctx key : (MemoryProvider_Get p ctx key).2 = p.
Proof.
  unfold MemoryProvider_Get. destruct (data p) as [m|]; [|done].
  by destruct (m !! key).
Qed.

(** X17. On an initialised in-memory provider a write never fails, is read
    back under its key whatever the context, leaves every other key as it
    was, and does not depend on the expiry asked for. *)
Theorem X17_memory_set_then_get p m ctx ctx' key value expiry :
  data p = Some m →
  (MemoryProvider_Set p ctx key value expiry).1 = None ∧
  (MemoryProvider_Get (MemoryProvider_Set p ctx key value expiry).2 ctx' key).1
    = (value, None) ∧
  (∀ key', key' ≠ key →
     (MemoryProvider_Get (MemoryProvider_Set p ctx key value expiry).2 ctx' key').1
       = (MemoryProvider_Get p ctx' key').1) ∧
  (∀ expiry', (MemoryProvider_Set p ctx key value expiry').2
                = (MemoryProvider_Set p ctx key value expiry).2).
Proof.
  intros Hd. unfold MemoryProvider_Set, MemoryProvider_Get. rewrite Hd. cbn.
  unfold bytes in *.
  split; [done|]. split; [by rewrite lookup_insert_eq|]. split; [|done].
  intros key' Hne. rewrite lookup_insert_ne by done. by destruct (m !! key').
Qed.

(** X18. A provider whose map was never made fails on every read and every
    write, and stays as it is: it never initialises itself. *)
Theorem X18_memory_uninitialised p ctx key value expiry :
  data p = None →
  MemoryProvider_Get p ctx key
    = ((None, Some (errors_New "memory provider is not initialized")), p) ∧
  MemoryProvider_Set p ctx key value expiry
    = (Some (errors_New "memory provider is not initialized"), p).
Proof. intros Hd. unfold MemoryProvider_Set, MemoryProvider_Get. by rewrite Hd. Qed.

(** X19. Reading the in-memory provider never changes it, and on an
    initialised provider never fails: a key that was not written gives no
    value and no error. *)
Theorem X19_memory_get_is_read_only p m ctx key :
  (MemoryProvider_Get p ctx key).2 = p ∧
  (data p = Some m →
     (MemoryProvider_Get p ctx key).1.2 = None ∧
     (m !! key = None → (MemoryProvider_Get p ctx key).1.1 = None)).
Proof.
  split; [apply MemoryProvider_Get_state|].
  unfold MemoryProvider_Get. intros ->. split; [by destruct (m !! key)|]. by intros ->.
Qed.

(** * The engine over the in-memory provider *)

Section Provider_state.

Context {P T C : Type}.
Context `{!Provider P, !HttpRequester T, !Clock C, !JsonCodec, !TimeParser}.

Implicit Types (w : World P T C) (r : Cache) (req : Request) (e : cacheEntry).

Lemma write_provider ctx key e w :
  provider (final (write ctx key e w)) = provider w ∨
  ∃ v, provider (final (write ctx key e w)) = (Set_ (provider w) ctx key (Some v) 0).2.
Proof. rewrite write_eq. destruct (json_Marshal e) as [d|]; [right|left]; by eauto. Qed.

Lemma store_provider ctx key resp w :
  provider (final (store ctx key resp w)) = provider w ∨
  ∃ v, provider (final (store ctx key resp w)) = (Set_ (provider w) ctx key (Some v) 0).2.
Proof.
  rewrite store_eq. destruct (Body resp) as [body|]; [|by left].
  destruct (read_err body); [by left|]. cbn zeta. case_decide; [|by left].
  apply (write_provider ctx key _
    {| provider := provider w; client := client w; clock := (Now (clock w)).2 |}).
Qed.

Lemma Do_fetch_provider req key entry w :
  provider (final (Do_fetch req key entry w)) = provider w ∨
  ∃ v, provider (final (Do_fetch req key entry w))
       = (Set_ (provider w) (Request_Context req) key (Some v) 0).2.
Proof.
  rewrite Do_fetch_eq. destruct (OnlyCached _); [by left|].
  destruct (with_If_None_Match entry req) as [rq|s]; [|by left]. cbn zeta.
  set (t' := (HttpRequester_Do _ _).2).
  destruct (HttpRequester_Do _ _).1 as [[rs|] [terr|]]; try by left.
  case_decide.
  - destruct entry as [e|]; [|by left].
    destruct (carry_headers e rs) as [rs'|s]; [|by left].
    apply (write_provider (Request_Context req) key e
      {| provider := provider w; client := t'; clock := (Now (Now (clock w)).2).2 |}).
  - apply (store_provider (Request_Context req) key rs
      {| provider := provider w; client := t'; clock := (Now (Now (clock w)).2).2 |}).
Qed.

(** The provider after a call: the one before, perhaps read once, perhaps
    then written once under the key of the request. *)
Lemma Do_provider r req w :
  ∃ p0,
    (p0 = provider w ∨
     p0 = (Get (provider w) (Request_Context req) (Cache_key r req)).2) ∧
    (provider (final (Do r req w)) = p0 ∨
     ∃ v, provider (final (Do r req w))
          = (Set_ p0 (Request_Context req) (Cache_key r req) (Some v) 0).2).
Proof.
  destruct (decide (req_Method req = MethodGet)) as [Hm|Hm].
  - rewrite (Do_GET_eq _ _ _ Hm). cbn zeta.
    destruct (IgnoreCache _).
    { exists (provider w). split; [by left|]. apply Do_fetch_provider. }
    exists (Get (provider w) (Request_Context req) (Cache_key r req)).2.
    split; [by right|].
    set (w1 := {| provider := _ |}).
    destruct (stored r req w) as [|e|serr]; cbn zeta.
    + apply (Do_fetch_provider req (Cache_key r req) None w1).
    + destruct (expired_final e w1) as [Hp _].
      destruct (expired_at e (current_time w)); [destruct (IgnoreExpired _)|];
        cbn [final prepend]; try (left; exact Hp).
      destruct (Do_fetch_provider req (Cache_key r req) (Some e) (final (expired e w1)))
        as [Hq|(v & Hq)]; rewrite Hq, Hp; [by left|right; by exists v].
    + destruct (errors_Is _ ErrCacheExpired);
        [apply (Do_fetch_provider req (Cache_key r req) None w1)|].
      destruct (errors_Is _ _); by left.
  - rewrite (Do_not_GET _ _ _ Hm), httpClient_Do_eq. exists (provider w).
    split; by left.
Qed.

End Provider_state.

Section Memory_store.

Context {T C : Type}.
Context `{!HttpRequester T, !Clock C, !JsonCodec, !TimeParser}.

(** X20. Over the in-memory provider a call of [Do], whatever the request
    and the answers, changes the store at most under the key of the request:
    every other key holds afterwards what it held before, and a provider
    that was not initialised stays so. *)
Theorem X20_memory_store_changes_at_the_key_only
    (r : Cache) (req : Request) (w : World MemoryProvider T C) :
  match data (provider w) with
  | None => data (provider (final (Do r req w))) = None
  | Some m =>
      ∃ m', data (provider (final (Do r req w))) = Some m' ∧
            ∀ key, key ≠ Cache_key r req → m' !! key = m !! key
  end.
Proof.
  destruct (Do_provider r req w) as (p0 & Hp0 & Hfin).
  assert (p0 = provider w) as ->.
  { destruct Hp0 as [->| ->]; [done|]. apply MemoryProvider_Get_state. }
  destruct Hfin as [->|(v & ->)].
  - destruct (data (provider w)) as [m|]; [|done]. by exists m.
  - cbn. unfold MemoryProvider_Set.
    destruct (data (provider w)) as [m|] eqn:Hd; cbn; [|done].
    eexists. split; [done|]. intros key Hne. unfold bytes in *.
    by rewrite lookup_insert_ne.
Qed.

End Memory_store.

(** The in-memory provider gives back what it accepted. *)
Lemma MemoryProvider_get_after_set : @get_after_set MemoryProvider _.
Proof.
  intros p ctx ctx' key value expiry. cbn.
  unfold MemoryProvider_Set, MemoryProvider_Get.
  destruct (data p) as [m|]; [|done]. cbn. intros _. unfold bytes in *.
  by rewrite lookup_insert_eq.
Qed.

(** A table codec whose encodings are distinct and not empty decodes what it
    encoded. *)
Lemma tableCodec_round_trip (table : list (cacheEntry * list byte)) :
  NoDup (table.*2) → Forall (λ row, row.2 ≠ []) table →
  @codec_round_trip (tableCodec table).
Proof.
  intros Hnd Hne e d. cbn.
  destruct (list_find (λ row, row.1 = e) table) as [[i row]|] eqn:Hfind; [|done].
  intros [= <-].
  apply list_find_Some in Hfind as (Hi & <- & _).
  split.
  { rewrite Forall_forall in Hne. apply Hne. by eapply list_elem_of_lookup_2. }
  destruct (list_find (λ row', row'.2 = row.2) table) as [[j row']|] eqn:Hfind'.
  - apply list_find_Some in Hfind' as (Hj & Heq & _).
    assert (i = j) as ->.
    { eapply (NoDup_lookup _ _ _ _ Hnd); rewrite list_lookup_fmap.
      - by rewrite Hi.
      - rewrite Hj. cbn. by rewrite Heq. }
    by simplify_eq.
  - apply list_find_None in Hfind'. rewrite Forall_forall in Hfind'.
    exfalso. apply (Hfind' row); [by eapply list_elem_of_lookup_2|done].
Qed.

(** * The Redis provider *)

Section Redis_provider.

Context {S : Type} `{!RedisClient S}.

(** X21. An error of the Redis client whose text is [redis: nil] is not an
    error of the provider: the value is absent.  Any other error comes back
    wrapped as [redis.Get(): ...] and is still recognised by [errors.Is]. *)
Theorem X21_redis_nil_is_absence (p : RedisProvider S) ctx key value err s' :
  client_Get (redis_client p) key = ((value, Some err), s') →
  (error_Error err = redisNil → (RedisProvider_Get p ctx key).1 = (None, None)) ∧
  (error_Error err ≠ redisNil →
     (RedisProvider_Get p ctx key).1 = (None, Some (fmt_Errorf "redis.Get(): " err)) ∧
     errors_Is (fmt_Errorf "redis.Get(): " err) err = true) ∧
  (RedisProvider_Get p ctx key).2 = {| redis_client := s' |}.
Proof.
  intros Hg. unfold RedisProvider_Get. rewrite Hg. split; [|split].
  - intros Ht. by rewrite decide_True.
  - intros Ht. rewrite decide_False by done. split; [done|].
    apply errors_Is_wrapped, errors_Is_refl.
  - by case_decide.
Qed.

(** X22. A value that Redis holds comes back as its bytes, without error,
    unless it is the empty text or the text [redis: nil]: these two read as
    if nothing were stored. *)
Theorem X22_redis_values (p : RedisProvider S) ctx key value s' :
  client_Get (redis_client p) key = ((value, None), s') →
  (RedisProvider_Get p ctx key).1.2 = None ∧
  (value = "" ∨ value = redisNil → (RedisProvider_Get p ctx key).1.1 = None) ∧
  (value ≠ "" → value ≠ redisNil →
     (RedisProvider_Get p ctx key).1.1 = Some (list_byte_of_string value)).
Proof.
  intros Hg. unfold RedisProvider_Get. rewrite Hg. split; [|split].
  - by case_decide.
  - intros Hv. by rewrite decide_True.
  - intros H1 H2. by rewrite decide_False by (by intros [|]).
Qed.

End Redis_provider.

(** * The logger with fixed key-values *)

Section Internal_logger.

Context {L S V : Type} `{!Logger L S V}.

(** X23. Key-values given to [With] accumulate in the order given: logging
    through a logger made by two calls of [With] hands the sink of the first
    logger its key-values, then those of the first [With], then those of the
    second, then those of the call; two calls of [With] are one with both
    lists. *)
Theorem X23_With_accumulates (l : internalLogger L V) (a b c : list V) (msg : string)
    (sink : S) :
  internalLogger_With (internalLogger_With l a) b = internalLogger_With l (a ++ b) ∧
  internalLogger_Debug (internalLogger_With (internalLogger_With l a) b) msg c sink
    = Logger_Debug (logger l) msg (keyvals l ++ a ++ b ++ c) sink ∧
  internalLogger_Info (internalLogger_With (internalLogger_With l a) b) msg c sink
    = Logger_Info (logger l) msg (keyvals l ++ a ++ b ++ c) sink ∧
  internalLogger_Error (internalLogger_With (internalLogger_With l a) b) msg c sink
    = Logger_Error (logger l) msg (keyvals l ++ a ++ b ++ c) sink.
Proof.
  unfold internalLogger_With, internalLogger_Debug, internalLogger_Info,
    internalLogger_Error. cbn. by rewrite <- !app_assoc.
Qed.

End Internal_logger.

(** * The further properties on the fixtures *)

Lemma fixture_codec_round_trip : @codec_round_trip fixture_codec.
Proof.
  apply tableCodec_round_trip.
  - compute_done.
  - repeat constructor; discriminate.
Qed.

(** C8 on the fixtures: the origin gives the tag under [Etag]; the first
    call stores the entry with it, and the second call, which finds the
    entry expired, sends its request without [If-None-Match]. *)
Lemma C8_tag_under_Etag_witness :
  fixture_stored req_expired (after world_empty_canonical [req_expired])
    = Stored (canonical_entry 2) ∧
  Headers (canonical_entry 2) !! "Etag" = Some "abcd" ∧
  transport_calls
    (log (fixture_Do req_expired (after world_empty_canonical [req_expired])))
    = [req_expired] ∧
  Header_values (req_Header req_expired) !! "If-None-Match" = None.
Proof.
  destruct (@C8_tag_under_Etag_is_not_sent MemoryProvider fakeRequester Z _ _ _
              fixture_codec fixture_time cache0 req_expired req_expired
              world_empty_canonical
              (asHttpResponse (canonical_entry 0) req_expired)
              (asHttpResponse (canonical_entry 2) req_expired)
              "abcd" []
              MemoryProvider_get_after_set fixture_codec_round_trip
              eq_refl eq_refl eq_refl eq_refl eq_refl eq_refl)
    as (e & Hst & Het & _ & Hcalls).
  - vm_compute. reflexivity.
  - discriminate.
  - vm_compute. reflexivity.
  - vm_compute. reflexivity.
  - discriminate.
  - vm_compute. reflexivity.
  - intros x xs t Hx Hp. vm_compute in Hx. injection Hx as <- <-.
    vm_compute in Hp. injection Hp as <-. vm_compute. reflexivity.
  - assert (Stored e = Stored (canonical_entry 2)) as [= ->]
      by (rewrite <- Hst; vm_compute; reflexivity).
    split; [exact Hst|]. split; [exact Het|]. split; [exact Hcalls|].
    vm_compute. reflexivity.
Defined.

(** X1 on the fixtures: a POST to a URL for which a fresh entry is stored. *)
Lemma X1_other_methods_witness :
  log (fixture_Do req_post world_fresh)
    = [EvDo req_post (Some (asHttpResponse (hello_entry 0 in_one_hour) req_post), None)] ∧
  provider (final (fixture_Do req_post world_fresh)) = provider world_fresh.
Proof.
  destruct (@X1_other_methods_pass_through MemoryProvider fakeRequester Z _ _ _
              fixture_codec fixture_time cache0 req_post world_fresh)
    as (_ & Hlog & Hprov & _); [discriminate|].
  split; [exact Hlog|exact Hprov].
Defined.

(** X2 on the fixtures: the origin is down. *)
Lemma X2_transport_error_witness :
  out (fixture_Do req_regular world_down)
    = Val (None, Some (fmt_Errorf "http.Do(): " (errors_New "requester not initialized"))).
Proof.
  destruct (@X2_transport_error_is_returned MemoryProvider fakeRequester Z _ _ _
              fixture_codec fixture_time cache0 req_regular world_down None
              (errors_New "requester not initialized") eq_refl)
    as (Hout & _); [vm_compute; reflexivity|exact Hout].
Defined.

(** X3 on the fixtures: the map of the store was never made. *)
Lemma X3_storage_read_error_witness :
  out (fixture_Do req_regular world_uninitialised)
    = Val (None, Some (fmt_Errorf "provider.Get(): "
                         (errors_New "memory provider is not initialized"))) ∧
  transport_calls (log (fixture_Do req_regular world_uninitialised)) = [].
Proof.
  destruct (@X3_storage_read_error_is_returned MemoryProvider fakeRequester Z _ _ _
              fixture_codec fixture_time cache0 req_regular world_uninitialised
              (errors_New "memory provider is not initialized") eq_refl eq_refl)
    as (Hout & _ & Hcalls & _); [vm_compute; reflexivity ..|].
  split; [exact Hout|exact Hcalls].
Defined.

(** X4 on the fixtures: a store that fails with each of the two sentinels. *)
Lemma X4_sentinel_witness :
  transport_calls (log (fixture_Do req_regular (world_broken ErrCacheExpired)))
    = [req_regular] ∧
  out (fixture_Do req_regular
         (world_broken (fmt_Errorf "redis.Get(): " ErrCacheExpiryIgnored)))
    = Panic nil_dereference.
Proof.
  destruct (@X4_storage_error_taken_for_a_sentinel BrokenProvider fakeRequester Z _ _ _
              fixture_codec fixture_time cache0 req_regular (world_broken ErrCacheExpired)
              ErrCacheExpired eq_refl eq_refl) as [Hexpired _];
    [vm_compute; reflexivity|].
  destruct (@X4_storage_error_taken_for_a_sentinel BrokenProvider fakeRequester Z _ _ _
              fixture_codec fixture_time cache0 req_regular
              (world_broken (fmt_Errorf "redis.Get(): " ErrCacheExpiryIgnored))
              (fmt_Errorf "redis.Get(): " ErrCacheExpiryIgnored) eq_refl eq_refl)
    as [_ Hignored]; [vm_compute; reflexivity|].
  split.
  - destruct (Hexpired eq_refl) as [_ Hfetch]. by apply Hfetch.
  - by destruct (Hignored eq_refl eq_refl).
Defined.

(** X5 on the fixtures: a hit, and a miss under onlyCached. *)
Lemma X5_response_or_error_witness :
  (∃ rs b, Body rs = Some b ∧ read_err b = None ∧
     out (fixture_Do req_regular world_fresh) = Val (Some rs, None)) ∧
  out (fixture_Do req_onlyCached world_empty) = Val (None, Some ErrCacheMiss).
Proof.
  split.
  - destruct (@X5_response_or_error MemoryProvider fakeRequester Z _ _ _
                fixture_codec fixture_time cache0 req_regular world_fresh
                (Some (asHttpResponse (hello_entry 0 in_one_hour) req_regular)) None
                eq_refl) as [(rs & b & [= <-] & _ & Hb & Hr)|[[=] _]];
      [vm_compute; reflexivity|].
    eexists _, b. split; [exact Hb|]. split; [exact Hr|]. vm_compute. reflexivity.
  - destruct (@X5_response_or_error MemoryProvider fakeRequester Z _ _ _
                fixture_codec fixture_time cache0 req_onlyCached world_empty
                None (Some ErrCacheMiss) eq_refl) as [(rs & b & [=] & _)|[_ _]];
      vm_compute; reflexivity.
Defined.

(** X7 and X8 on the fixtures: a first fetch into an empty store. *)
Lemma X7_stored_witness :
  ∃ d, storage_writes (log (fixture_Do req_regular world_empty))
         = [(regularURL, Some d, 0)] ∧
       write_error (log (fixture_Do req_regular world_empty)) = None.
Proof.
  destruct (@X7_returned_after_fetch_means_stored MemoryProvider fakeRequester Z _ _ _
              fixture_codec fixture_time cache0 req_regular world_empty
              (asHttpResponse (hello_entry 0 in_one_hour) req_regular)
              (asHttpResponse (hello_entry 2 in_one_hour) req_regular) eq_refl)
    as (e & d & Hj & Hw & He & _); [vm_compute; reflexivity| discriminate
                               | vm_compute; reflexivity|].
  exists d. split; [exact Hw|exact He].
Defined.

Lemma X8_collapsed_witness :
  ∃ rsp, out (fixture_Do req_regular world_empty) = Val (Some rsp, None) ∧
    StatusCode rsp = 200 ∧
    Header_values (resp_Header rsp) !! "Expires" = Some [in_one_hour].
Proof.
  exists (asHttpResponse (hello_entry 2 in_one_hour) req_regular).
  destruct (@X8_fetched_response_is_collapsed MemoryProvider fakeRequester Z _ _ _
              fixture_codec fixture_time cache0 req_regular world_empty
              (asHttpResponse (hello_entry 0 in_one_hour) req_regular)
              (asHttpResponse (hello_entry 2 in_one_hour) req_regular) eq_refl)
    as (Hs & _ & Hh); [vm_compute; reflexivity| discriminate
                       | vm_compute; reflexivity|].
  split; [vm_compute; reflexivity|]. split; [exact Hs|].
  rewrite (Hh "Expires"). vm_compute. reflexivity.
Defined.

(** X9 on the fixtures: no answer at all, the body-less 404 of the test
    requester, and a header without values. *)
Lemma X9_panics_witness :
  out (canned_Do req_regular (world_canned (None, None))) = Panic nil_dereference ∧
  out (fixture_Do req_nonExisting world_empty) = Panic nil_dereference ∧
  out (canned_Do req_regular (world_canned (Some resp_empty_header, None)))
    = Panic "index out of range [0] with length 0".
Proof.
  split; [|split].
  - destruct (@X9_panics_on_malformed_answers MemoryProvider cannedRequester Z _ _ _
                fixture_codec fixture_time cache0 req_regular
                (world_canned (None, None)) eq_refl) as (Hnil & _).
    by destruct (Hnil eq_refl).
  - destruct (@X9_panics_on_malformed_answers MemoryProvider fakeRequester Z _ _ _
                fixture_codec fixture_time cache0 req_nonExisting world_empty eq_refl)
      as (_ & Hbody & _).
    destruct (Hbody {| StatusCode := StatusNotFound; Body := None; resp_Header := None;
                       resp_Request := None; ContentLength := 0 |})
      as [Hout _]; [vm_compute; reflexivity|discriminate|reflexivity|exact Hout].
  - destruct (@X9_panics_on_malformed_answers MemoryProvider cannedRequester Z _ _ _
                fixture_codec fixture_time cache0 req_regular
                (world_canned (Some resp_empty_header, None)) eq_refl) as (_ & _ & Hhead).
    destruct (Hhead resp_empty_header (NopCloser hello) "X-Empty")
      as [Hout _]; [reflexivity|discriminate|reflexivity|reflexivity
                    |vm_compute; reflexivity|exact Hout].
Defined.

(** X10 on the fixtures: a body that breaks off. *)
Lemma X10_body_read_error_witness :
  out (canned_Do req_regular (world_canned (Some resp_failing_body, None)))
    = Val (None, Some (fmt_Errorf "r.store(): "
                         (fmt_Errorf "io.ReadAll(): " (ErrForeign "unexpected EOF")))).
Proof.
  destruct (@X10_body_read_error_is_returned MemoryProvider cannedRequester Z _ _ _
              fixture_codec fixture_time cache0 req_regular
              (world_canned (Some resp_failing_body, None)) resp_failing_body
              {| stream := hello; read_err := Some (ErrForeign "unexpected EOF") |}
              (ErrForeign "unexpected EOF") eq_refl)
    as [Hout _]; [reflexivity|discriminate|reflexivity|reflexivity|exact Hout].
Defined.

(** X11 on the fixtures: the first call fills the empty store, the second
    is answered from it. *)
Lemma X11_fetched_then_served_witness :
  ∃ rsp2, out (fixture_Do req_regular (after world_empty [req_regular]))
            = Val (Some rsp2, None) ∧
    Body rsp2 = Some (NopCloser hello) ∧
    transport_calls (log (fixture_Do req_regular (after world_empty [req_regular]))) = [].
Proof.
  destruct (@X11_fetched_then_served MemoryProvider fakeRequester Z _ _ _
              fixture_codec fixture_time cache0 req_regular req_regular world_empty
              (asHttpResponse (hello_entry 0 in_one_hour) req_regular)
              (asHttpResponse (hello_entry 2 in_one_hour) req_regular)
              in_one_hour [] 3600
              MemoryProvider_get_after_set fixture_codec_round_trip
              eq_refl eq_refl eq_refl eq_refl)
    as (rsp2 & Ho & _ & Hb & _ & Hcalls);
    [vm_compute; reflexivity | discriminate | vm_compute; reflexivity
    | vm_compute; reflexivity | vm_compute; reflexivity | vm_compute; discriminate |].
  exists rsp2. split; [exact Ho|]. split; [|exact Hcalls].
  rewrite Hb. reflexivity.
Defined.

(** X12 on the fixtures: an expired entry revalidated by a 304. *)
Lemma X12_revalidation_witness :
  fixture_stored req_expired (final (fixture_Do req_expired world_stale_not_modified))
    = Stored (tagged_entry 0 200 hello) ∧
  storage_writes (log (fixture_Do req_expired world_stale_not_modified))
    = [(expiredURL, encoded (tagged_entry 0 200 hello), 0)] ∧
  fixture_expired_at (tagged_entry 0 200 hello) 7200 = true.
Proof.
  destruct (@X12_revalidation_keeps_the_entry MemoryProvider fakeRequester Z _ _ _
              fixture_codec fixture_time cache0 req_expired world_stale_not_modified
              (tagged_entry 0 200 hello)
              (asHttpResponse (tagged_entry 0 304 []) req_expired_tagged)
              expiredURL (encoded (tagged_entry 0 200 hello)) 0
              MemoryProvider_get_after_set fixture_codec_round_trip
              eq_refl eq_refl eq_refl eq_refl)
    as ((d & _ & Hd & Hw) & Hst & Hlater); try (vm_compute; reflexivity).
  { vm_compute. do 2 apply list_elem_of_further. apply list_elem_of_here. }
  split; [exact Hst|]. split.
  - etrans; [exact Hw|]. by injection Hd as <-.
  - apply Hlater. vm_compute. discriminate.
Defined.

(** X24 on the fixtures: the stored entry has the tag ["abcd"] under
    [ETag]; the request of the test, and the same request built without a
    header map. *)
Lemma X24_ETag_witness :
  transport_calls (log (fixture_Do req_expired world_stale)) = [req_expired_tagged] ∧
  out (fixture_Do req_expired_bare world_stale) = Panic nil_map_assignment ∧
  transport_calls (log (fixture_Do req_expired_bare world_stale)) = [].
Proof.
  destruct (@X24_ETag_becomes_If_None_Match MemoryProvider fakeRequester Z _ _ _
              fixture_codec fixture_time cache0 req_expired world_stale
              (tagged_entry 0 200 hello) eq_refl eq_refl eq_refl eq_refl)
    as [Htagged _]; [vm_compute; reflexivity ..|].
  destruct (@X24_ETag_becomes_If_None_Match MemoryProvider fakeRequester Z _ _ _
              fixture_codec fixture_time cache0 req_expired_bare world_stale
              (tagged_entry 0 200 hello) eq_refl eq_refl eq_refl eq_refl)
    as [Hbare _]; [vm_compute; reflexivity ..|].
  destruct (Htagged "abcd") as [Hsent _]; [vm_compute; reflexivity | discriminate |].
  destruct (Hbare "abcd") as [_ Hpanic]; [vm_compute; reflexivity | discriminate |].
  destruct (Hpanic eq_refl) as (Hout & Hnone & _).
  split; [exact (Hsent ∅ eq_refl)|]. split; [exact Hout|exact Hnone].
Defined.

(** X13 on the fixtures: the entry of the first test, stored again. *)
Lemma X13_store_of_rebuilt_response_witness :
  out (@store MemoryProvider fakeRequester Z _ _ fixture_codec Background regularURL
         (asHttpResponse (hello_entry 0 in_one_hour) req_regular) world_empty)
    = Val (Some (hello_entry 0 in_one_hour), None).
Proof.
  destruct (@X13_store_of_rebuilt_response MemoryProvider fakeRequester Z _ _ fixture_codec
              Background regularURL (hello_entry 0 in_one_hour) req_regular world_empty)
    as (o & Ho & Hentry).
  rewrite Ho. destruct o as [oe oerr].
  assert (oerr = None) as -> by (vm_compute in Ho; congruence).
  pose proof (Hentry eq_refl) as He. cbn in He. rewrite He. reflexivity.
Defined.

(** X14 on the fixtures: expired at instant 0, expired at instant 5. *)
Lemma X14_expired_stays_expired_witness :
  out (@expired MemoryProvider fakeRequester Z _ fixture_time
         (hello_entry 0 one_hour_ago)
         {| provider := MemoryProvider_New; client := origin; clock := 5 |}) = Val true.
Proof.
  apply (@X14_expired_stays_expired MemoryProvider fakeRequester Z _ fixture_time
           (hello_entry 0 one_hour_ago) world_empty); [vm_compute; discriminate|].
  vm_compute. reflexivity.
Defined.

(** X16 on the fixtures: a context on which only ignoreCache was set. *)
Lemma X16_flags_witness :
  IgnoreExpired (Some (WithIgnoreCache Background true)) = false ∧
  OnlyCached (Some (WithIgnoreCache Background true)) = false.
Proof.
  destruct (X16_flags_are_independent Background true)
    as (_ & _ & Hie & Hoc & _).
  destruct (X16_flags_are_independent Background true)
    as (_ & _ & _ & _ & _ & _ & Hie0 & _ & Hoc0).
  split.
  - rewrite Hie. by apply Hie0.
  - rewrite Hoc. by apply Hoc0.
Defined.

(** X17, X18 and X19 on the tests of [provider_test.go]. *)
Lemma X17_memory_set_then_get_witness :
  (MemoryProvider_Get
     (MemoryProvider_Set MemoryProvider_New Background "key"
        (Some (list_byte_of_string "value")) 0).2 Background "key").1
  = (Some (list_byte_of_string "value"), None).
Proof.
  destruct (X17_memory_set_then_get MemoryProvider_New ∅ Background Background "key"
              (Some (list_byte_of_string "value")) 0 eq_refl) as (_ & Hget & _).
  exact Hget.
Defined.

Lemma X18_memory_uninitialised_witness :
  (MemoryProvider_Set {| data := None |} Background "key" None 0).1
    = Some (errors_New "memory provider is not initialized") ∧
  (MemoryProvider_Get {| data := None |} Background "key").1.2
    = Some (errors_New "memory provider is not initialized").
Proof.
  destruct (X18_memory_uninitialised {| data := None |} Background "key" None 0 eq_refl)
    as [Hget Hset].
  split; [by rewrite Hset|by rewrite Hget].
Defined.

Lemma X19_memory_unset_key_witness :
  (MemoryProvider_Get MemoryProvider_New Background "key").1 = (None, None).
Proof.
  destruct (X19_memory_get_is_read_only MemoryProvider_New ∅ Background "key")
    as [_ Hinit].
  destruct (Hinit eq_refl) as [Herr Hval]. specialize (Hval eq_refl).
  destruct (MemoryProvider_Get MemoryProvider_New Background "key").1 as [v err].
  cbn in *. by subst.
Defined.

(** X21 and X22 on the Redis double: a missing key, a value, and the two
    values that read as absent. *)
Lemma X21_redis_nil_witness :
  (RedisProvider_Get redis_fixture Background "missing").1 = (None, None).
Proof.
  destruct (X21_redis_nil_is_absence redis_fixture Background "missing" ""
              (ErrForeign redisNil) (redis_client redis_fixture))
    as (Hnil & _); [vm_compute; reflexivity|].
  by apply Hnil.
Defined.

Lemma X22_redis_values_witness :
  (RedisProvider_Get redis_fixture Background "a").1.1
    = Some (list_byte_of_string "value") ∧
  (RedisProvider_Get redis_fixture Background "b").1.1 = None ∧
  (RedisProvider_Get redis_fixture Background "c").1.1 = None.
Proof.
  destruct (X22_redis_values redis_fixture Background "a" "value"
              (redis_client redis_fixture)) as (_ & _ & Ha);
    [vm_compute; reflexivity|].
  destruct (X22_redis_values redis_fixture Background "b" ""
              (redis_client redis_fixture)) as (_ & Hb & _);
    [vm_compute; reflexivity|].
  destruct (X22_redis_values redis_fixture Background "c" redisNil
              (redis_client redis_fixture)) as (_ & Hc & _);
    [vm_compute; reflexivity|].
  split; [apply Ha; discriminate|]. split; [apply Hb; by left|apply Hc; by right].
Defined.
